(** * ICU antimicrobial stewardship CDS: the decision rule and feature alignment

    A shallow embedding of [app.py].  Probabilities, thresholds and feature
    values are IEEE 754 binary64 numbers, as Python's [float] and NumPy's
    [float64] are; they are modelled by Rocq's primitive floats, whose
    comparisons follow the same standard (every comparison with NaN is
    false).  A patient record (the [dict] handed to [map_action]) is a
    finite map from column names to floats, a missing value being NaN, as
    in the data model: feature columns are numeric, and no validation of
    cell types is part of the program.  An uploaded file may also hold
    text; the batch flow is therefore modelled on tables of cells that
    are numbers or texts, where the same code can raise [TypeError]. *)

From Stdlib Require Import Floats ZArith Bool List Lia.
From stdpp Require Import base option list strings gmap.

Set Warnings "-inexact-float".
Local Open Scope string_scope.
Local Open Scope list_scope.

(** ** Binary64 comparisons *)

Module PyFloat.

(** [prob < thr] on Python floats. *)
Definition lt (x y : float) : bool := PrimFloat.ltb x y.
(** [p >= thr] on Python floats, that is [thr <= p]. *)
Definition ge (x y : float) : bool := PrimFloat.leb y x.
(** [p == thr] on Python floats. *)
Definition eq (x y : float) : bool := PrimFloat.eqb x y.
(** [np.isnan]. *)
Definition isnan (x : float) : bool := PrimFloat.is_nan x.
(** [np.nan]. *)
Definition nan : float := PrimFloat.nan.

End PyFloat.

(** ** Helper constants (lines 29-30) *)

Definition GUARD_TEMP_MAX : float := 38.0%float.
Definition GUARD_LACTATE_MAX : float := 2.0%float.

(** The three recommendation labels. *)
Definition STOP : string := "Stop / De-escalate".
Definition EVALUATE : string := "Evaluate in 24h".
Definition CONTINUE : string := "Continue / Broaden if worsening".

(** [row.get(k, d)] on a dict. *)
Definition dict_get (row : gmap string float) (k : string) (d : float) : float :=
  match row !! k with
  | Some v => v
  | None => d
  end.

(** ** [map_action] (lines 32-44) *)

Definition map_action (prob : float) (row : gmap string float) (thr : float) : string :=
  if PyFloat.lt prob thr then
    let stable := true in
    let t := dict_get row "median_temp" PyFloat.nan in
    let l := dict_get row "median_lactate" PyFloat.nan in
    let stable := if negb (PyFloat.isnan t)
                  then stable && PyFloat.lt t GUARD_TEMP_MAX else stable in
    let stable := if negb (PyFloat.isnan l)
                  then stable && PyFloat.lt l GUARD_LACTATE_MAX else stable in
    if stable then STOP else EVALUATE
  else CONTINUE.

(** ** Tables

    A pandas [DataFrame] as far as the program uses one: the column labels
    in order, and the rows in index order, each row holding one cell per
    column.  The uploaded table and the feature matrix hold floats (a missing
    value is NaN); the exported table also holds the recommendation text. *)

Record DataFrame (A : Type) : Type := mkDF {
  columns : list string;
  rows : list (list A)
}.
Arguments mkDF {A} _ _.
Arguments columns {A} _.
Arguments rows {A} _.

(** A cell of the exported table: a number or a text. *)
Inductive cell : Type :=
| Num (x : float)
| Str (s : string).

(** The labels are distinct and every row has one cell per label: what
    [pd.read_csv] and [pd.DataFrame([dict])] build. *)
Definition wf_df {A} (df : DataFrame A) : Prop :=
  NoDup (columns df) /\ Forall (fun r => length r = length (columns df)) (rows df).

(** [len(df)]. *)
Definition df_len {A} (df : DataFrame A) : nat := length (rows df).

(** The cells of row [r] that stand under label [c], left to right. *)
Fixpoint pick {A} (c : string) (cols : list string) (r : list A) : list A :=
  match cols, r with
  | k :: cols', v :: r' =>
      if decide (k = c) then v :: pick c cols' r' else pick c cols' r'
  | _, _ => []
  end.

(** Row [r] with [v] written under every label [c]. *)
Fixpoint put {A} (c : string) (v : A) (cols : list string) (r : list A) : list A :=
  match cols, r with
  | k :: cols', x :: r' =>
      (if decide (k = c) then v else x) :: put c v cols' r'
  | _, _ => r
  end.

(** [df[c] = v] with a scalar [v]: an existing column is overwritten in
    place, a new one is appended on the right. *)
Definition setitem_scalar {A} (c : string) (v : A) (df : DataFrame A) : DataFrame A :=
  if decide (c ∈ columns df)
  then mkDF (columns df) (map (put c v (columns df)) (rows df))
  else mkDF (columns df ++ [c]) (map (fun r => r ++ [v]) (rows df)).

(** [df[c] = vals] with one value per row; pandas raises [ValueError] when
    the lengths differ. *)
Definition setitem {A} (c : string) (vals : list A) (df : DataFrame A)
  : option (DataFrame A) :=
  if decide (length vals = df_len df) then
    Some (if decide (c ∈ columns df)
          then mkDF (columns df)
                 (zip_with (fun v r => put c v (columns df) r) vals (rows df))
          else mkDF (columns df ++ [c])
                 (zip_with (fun v r => r ++ [v]) vals (rows df)))
  else None.

(** [df[names]]: the columns under the given labels, in the order of
    [names]; pandas raises [KeyError] when a label is missing. *)
Definition getitem {A} (names : list string) (df : DataFrame A)
  : option (DataFrame A) :=
  if decide (Forall (fun c => c ∈ columns df) names) then
    Some (mkDF (flat_map (fun c => pick c (columns df) (columns df)) names)
               (map (fun r => flat_map (fun c => pick c (columns df) r) names)
                    (rows df)))
  else None.

(** [dict(zip(cols, r))], as [Series.to_dict] builds it: a later duplicate
    label wins. *)
Definition to_dict (cols : list string) (r : list float) : gmap string float :=
  list_to_map (reverse (zip cols r)).

(** [df.iloc[i].to_dict()]; [iloc] raises [IndexError] out of range. *)
Definition iloc_to_dict (df : DataFrame float) (i : nat) : option (gmap string float) :=
  match rows df !! i with
  | Some r => Some (to_dict (columns df) r)
  | None => None
  end.

(** The loop of [ensure_feature_df] (lines 48-50) over the labels
    [feats]: a label the table lacks becomes a new all-NaN column. *)
Definition fill_missing (feats : list string) (df : DataFrame float) : DataFrame float :=
  foldl (fun d c => if decide (c ∈ columns d) then d
                    else setitem_scalar c PyFloat.nan d)
        df feats.

(** The labels that loop appends to a table whose labels are [cols]. *)
Fixpoint missing (feats cols : list string) : list string :=
  match feats with
  | [] => []
  | c :: feats' =>
      if decide (c ∈ cols) then missing feats' cols
      else c :: missing feats' (cols ++ [c])
  end.

(** The one-row table made of row [r] alone. *)
Definition one_row {A} (cols : list string) (r : list A) : DataFrame A :=
  mkDF cols [r].

(** [raw.copy()] seen as the table that will also receive text cells. *)
Definition as_object (df : DataFrame float) : DataFrame cell :=
  mkDF (columns df) (map (map Num) (rows df)).

(** What the page shows, in order. *)
Inductive widget : Type :=
| Metric (label value : string)
| Success (body : string)
| Subheader (body : string)
| BarChart (contrib : list (string * float))
| Info (body : string).

(** ** Records and tables as a file delivers them

    [pd.read_csv] (line 115) yields numbers and, in a column that does
    not parse as numbers, text.  The alignment and the decision rule are
    the same code on such a table; what changes is that [np.isnan] and
    the comparison with a float raise [TypeError] on text.  [None] stands
    for a raised exception. *)

(** [dict(zip(cols, r))] for cells of any kind; a later duplicate label
    wins. *)
Definition row_dict {A} (cols : list string) (r : list A) : gmap string A :=
  list_to_map (reverse (zip cols r)).

(** [row.get(k, d)]. *)
Definition get_or {A} (row : gmap string A) (k : string) (d : A) : A :=
  match row !! k with
  | Some v => v
  | None => d
  end.

(** [df.iloc[i].to_dict()] on an uploaded table. *)
Definition iloc_row_dict (df : DataFrame cell) (i : nat) : option (gmap string cell) :=
  match rows df !! i with
  | Some r => Some (row_dict (columns df) r)
  | None => None
  end.

(** [np.isnan(v)]: [TypeError] on text. *)
Definition np_isnan (v : cell) : option bool :=
  match v with
  | Num x => Some (PyFloat.isnan x)
  | Str _ => None
  end.

(** [v < bound] with a float bound: [TypeError] on text. *)
Definition cell_lt (v : cell) (bound : float) : option bool :=
  match v with
  | Num x => Some (PyFloat.lt x bound)
  | Str _ => None
  end.

(** [map_action] (lines 32-44) on a record read from a file. *)
Definition map_action_obj (prob : float) (row : gmap string cell) (thr : float)
  : option string :=
  if PyFloat.lt prob thr then
    let stable := true in
    let t := get_or row "median_temp" (Num PyFloat.nan) in
    let l := get_or row "median_lactate" (Num PyFloat.nan) in
    nt ← np_isnan t;
    stable ← (if negb nt : bool
              then b ← cell_lt t GUARD_TEMP_MAX; Some (stable && b)
              else Some stable) : option bool;
    nl ← np_isnan l;
    stable ← (if negb nl : bool
              then b ← cell_lt l GUARD_LACTATE_MAX; Some (stable && b)
              else Some stable) : option bool;
    Some (if stable : bool then STOP else EVALUATE)
  else Some CONTINUE.

(** The loop of [ensure_feature_df] (lines 48-50) with [na] for [np.nan]. *)
Definition fill_with {A} (na : A) (feats : list string) (df : DataFrame A) : DataFrame A :=
  foldl (fun d c => if decide (c ∈ columns d) then d else setitem_scalar c na d)
        df feats.

(** The number a cell holds, if it holds one. *)
Definition cell_number (v : cell) : option float :=
  match v with
  | Num x => Some x
  | Str _ => None
  end.

(** The numeric entries of a record. *)
Definition numbers (row : gmap string cell) : gmap string float :=
  omap cell_number row.

(** The record holds no text under [k]. *)
Definition numeric_at (row : gmap string cell) (k : string) : Prop :=
  forall s, row !! k <> Some (Str s).

(** *** A run of page code

    What the code rendered, and the exception that stopped it, if one is
    still in flight. *)

(** A raised exception: an instance of [Exception] (ImportError,
    ValueError, ...), or one outside that class (KeyboardInterrupt,
    SystemExit), with its message. *)
Inductive raised : Type :=
| Exc (msg : string)
| BaseExc (msg : string).

Record page : Type := mkPage {
  shown : list widget;
  pending : option raised
}.

(** A Streamlit call that renders one widget. *)
Definition render (w : widget) : page := mkPage [w] None.

(** [raise e]. *)
Definition raise (e : raised) : page := mkPage [] (Some e).

(** Sequencing: the second statement runs only when the first has not
    raised. *)
Definition andthen (a b : page) : page :=
  match pending a with
  | Some _ => a
  | None => mkPage (shown a ++ shown b) (pending b)
  end.

(** [try: body / except Exception as e: handler(str(e))]: an [Exception]
    raised by the body is handed to the handler, what the body rendered
    before stays; anything else passes through. *)
Definition try_except_Exception (body : page) (handler : string -> page) : page :=
  match pending body with
  | Some (Exc msg) => andthen (mkPage (shown body) None) (handler msg)
  | _ => body
  end.

(** ** Vocabulary of the decision rule's properties *)

(** The record has no usable value under [k]: the key is missing, or its
    value is NaN. *)
Definition absent_or_null (row : gmap string float) (k : string) : Prop :=
  row !! k = None \/ exists v, row !! k = Some v /\ PyFloat.isnan v = true.

(** A value that is present under [k] lies strictly below [bound]. *)
Definition passes_guardrail (row : gmap string float) (k : string) (bound : float) : Prop :=
  forall v, row !! k = Some v -> PyFloat.isnan v = false -> PyFloat.lt v bound = true.

(** Two records agree under [k]: the same entry, or no usable value in
    either. *)
Definition same_entry (r1 r2 : gmap string float) (k : string) : Prop :=
  r1 !! k = r2 !! k \/ (absent_or_null r1 k /\ absent_or_null r2 k).

(** A value is present under [k] and does not lie strictly below [bound]. *)
Definition fails_guardrail (row : gmap string float) (k : string) (bound : float) : Prop :=
  exists v, row !! k = Some v /\ PyFloat.isnan v = false /\ PyFloat.lt v bound = false.

(** The labels from the least to the most cautious: stop, evaluate,
    continue. *)
Definition severity (a : string) : nat :=
  if decide (a = STOP) then 0
  else if decide (a = EVALUATE) then 1
  else 2.

(** The exported table keeps every row and every column of the uploaded
    one, in order, and has exactly two more columns. *)
Definition keeps_and_adds_two (raw out : DataFrame cell) : Prop :=
  exists c1 c2,
    columns out = columns raw ++ [c1; c2] /\
    Forall2 (fun r o => exists v1 v2, o = r ++ [v1; v2]) (rows raw) (rows out).

(** ** Sample artifacts and tables

    A small schema, a threshold, stand-ins for the classifier, for the
    rounding and formatting functions and for a failing explanation step,
    and a few uploaded tables. *)

Module Demo.

Definition feats : list string := ["median_temp"; "median_lactate"; "median_wbc"].
Definition thr : float := 0.5%float.

(** A stand-in classifier: each row is scored from its first feature. *)
Definition score (r : list float) : float :=
  match r with
  | x :: _ => if PyFloat.lt x 38.0%float then 0.3%float else 0.6%float
  | [] => 0.3%float
  end.
Definition predict (X : DataFrame float) : list float := map score (rows X).

(** Stands for [np.round(x, 3)] on values that already have three decimals. *)
Definition round3 (x : float) : float := x.
Definition fmt (x : float) : string :=
  if PyFloat.lt x 0.4%float then "0.300" else "0.500".
Definition shap_fails (X : DataFrame float) : string + list (string * float) :=
  inl "No module named 'shap'".

Definition raw : DataFrame float :=
  mkDF ["id"; "median_lactate"; "median_temp"]
       [[1%float; 1.0%float; 37.0%float]; [2%float; 2.5%float; 38.5%float]].

Definition aligned : DataFrame float :=
  mkDF feats [[37.0%float; 1.0%float; 9.5%float]].

Definition unrelated : DataFrame float :=
  mkDF ["id"; "ward"] [[1%float; 4%float]; [2%float; 7%float]].

(** A form nobody touched: every widget still holds its initial value. *)
Definition untouched (label : string) (initial : float) : float := initial.

(** The stand-in classifier on an uploaded table: it refuses text. *)
Definition predict_obj (X : DataFrame cell) : option (list float) :=
  match mapM (mapM cell_number) (rows X) with
  | Some rs => Some (predict (mkDF (columns X) rs))
  | None => None
  end.

(** An explanation step that finds no SHAP library. *)
Definition attribution_fails (X : DataFrame float)
  : raised + list (string * float) :=
  inl (Exc "No module named 'shap'").

(** An upload with a text identity column. *)
Definition upload : DataFrame cell :=
  mkDF ["patient"; "median_lactate"; "median_temp"]
       [[Str "A-01"; Num 1.0%float; Num 37.0%float];
        [Str "B-02"; Num 2.5%float; Num 38.5%float]].

(** A previously exported file, uploaded again. *)
Definition reuploaded : DataFrame cell :=
  mkDF ["median_temp"; "prob_infection"; "recommendation"]
       [[Num 37.0%float; Num 0.9%float; Str "Continue / Broaden if worsening"]].

(** A schema without lactate, and an upload with a text lactate. *)
Definition feats_no_lactate : list string := ["median_temp"; "median_wbc"].
Definition text_lactate : DataFrame cell :=
  mkDF ["median_temp"; "median_lactate"] [[Num 37.0%float; Str "high"]].

End Demo.

(** ** The application *)

Section App.

(** The artifacts [load_models] returns (lines 9-16), and the library
    functions the flows call. *)
Variable FEATURE_ORDER : list string.
Variable THRESHOLD : float.
(** [cal.predict_proba(X)[:,1]]: the class-1 probability of every row. *)
Variable predict_proba : DataFrame float -> list float.
(** [np.round(x, 3)]. *)
Variable np_round3 : float -> float.
(** [f"{x:.3f}"]. *)
Variable fmt3 : float -> string.
(** Lines 99-103: the SHAP attribution of the single row and its five
    largest contributions; [inl e] when any of these steps raises [e]. *)
Variable shap_top5 : DataFrame float -> string + list (string * float).

(** *** [ensure_feature_df] (lines 46-52)

    The loop writes into the caller's table; the result is a new table.
    The first component is the caller's table after the call. *)
Definition ensure_feature_df (df : DataFrame float)
  : DataFrame float * option (DataFrame float) :=
  let df := fill_missing FEATURE_ORDER df in
  (df, getitem FEATURE_ORDER df).

(** The features of one row, in schema order: what alignment makes of it. *)
Definition features (cols : list string) (r : list float) : list float :=
  map (fun c => dict_get (to_dict cols r) c PyFloat.nan) FEATURE_ORDER.

(** *** Single-record flow (lines 88-91), from the one-row table [row] *)
Definition predict_one (row : DataFrame float)
  : option (DataFrame float * float * string) :=
  let '(row, X) := ensure_feature_df row in
  X ← X;
  prob ← predict_proba X !! 0%nat;
  d ← iloc_to_dict row 0;
  Some (X, prob, map_action prob d THRESHOLD).

(** Lines 98-107. *)
Definition explain (X : DataFrame float) : list widget :=
  match shap_top5 X with
  | inr contrib =>
      [Subheader "Top-5 faktor yang mempengaruhi skor (SHAP)"; BarChart contrib]
  | inl e => [Info ("SHAP tidak ditampilkan (" +:+ e +:+ ").")]
  end.

(** The primary result (lines 93-95). *)
Definition show_result (prob : float) (action : string) : list widget :=
  [Metric "Probabilitas infeksi (terkalibrasi)" (fmt3 prob);
   Metric "Ambang aksi (sens tinggi)" (fmt3 THRESHOLD);
   Success ("Rekomendasi: **" +:+ action +:+ "**")].

(** Lines 87-107: what pressing "Predict" renders. *)
Definition on_predict (row : DataFrame float) : option (list widget) :=
  '(X, prob, action) ← predict_one row;
  Some (show_result prob action ++ explain X).

(** *** Lines 93-107 as a run of page code *)

(** Lines 99-103: the SHAP attribution of the single row and its five
    largest contributions, or the exception one of these steps raises. *)
Variable attribution : DataFrame float -> raised + list (string * float).

(** The body of the [try] (lines 99-105). *)
Definition explain_body (X : DataFrame float) : page :=
  match attribution X with
  | inl e => raise e
  | inr contrib =>
      andthen (render (Subheader "Top-5 faktor yang mempengaruhi skor (SHAP)"))
              (render (BarChart contrib))
  end.

(** Lines 93-107. *)
Definition render_prediction (X : DataFrame float) (prob : float) (action : string)
  : page :=
  andthen (render (Metric "Probabilitas infeksi (terkalibrasi)" (fmt3 prob)))
  (andthen (render (Metric "Ambang aksi (sens tinggi)" (fmt3 THRESHOLD)))
  (andthen (render (Success ("Rekomendasi: **" +:+ action +:+ "**")))
           (try_except_Exception (explain_body X)
              (fun e => render (Info ("SHAP tidak ditampilkan (" +:+ e +:+ ").")))))).

(** Lines 87-107; [None] when the prediction itself (lines 88-91) fails. *)
Definition on_predict_page (row : DataFrame float) : option page :=
  '(X, prob, action) ← predict_one row;
  Some (render_prediction X prob action).

(** *** Batch flow (lines 115-124), on the table [pd.read_csv] returns *)

(** [cal.predict_proba(Xb)[:,1]] on an aligned uploaded table; [None]
    when the classifier raises. *)
Variable predict_proba_obj : DataFrame cell -> option (list float).

(** [ensure_feature_df] (lines 46-52) on an uploaded table. *)
Definition ensure_feature_df_obj (df : DataFrame cell)
  : DataFrame cell * option (DataFrame cell) :=
  let df := fill_with (Num PyFloat.nan) FEATURE_ORDER df in
  (df, getitem FEATURE_ORDER df).

(** The single-record computation (lines 88-91) on a row of an uploaded
    table. *)
Definition predict_one_obj (row : DataFrame cell)
  : option (DataFrame cell * float * string) :=
  let '(row, X) := ensure_feature_df_obj row in
  X ← X;
  probs ← predict_proba_obj X;
  prob ← probs !! 0%nat;
  d ← iloc_row_dict row 0;
  action ← map_action_obj prob d THRESHOLD;
  Some (X, prob, action).

(** Lines 118-120. *)
Definition batch_actions (probs : list float) (raw : DataFrame cell) (n : nat)
  : option (list string) :=
  mapM (fun i => p ← probs !! i;
                 d ← iloc_row_dict raw i;
                 map_action_obj p d THRESHOLD)
       (seq 0 n).

Definition batch (raw : DataFrame cell) : option (DataFrame cell) :=
  let '(_, Xb) := ensure_feature_df_obj raw in
  Xb ← Xb;
  probs ← predict_proba_obj Xb;
  actions ← batch_actions probs raw (df_len Xb);
  out ← setitem "prob_infection" (map (fun p => Num (np_round3 p)) probs) raw;
  setitem "recommendation" (map Str actions) out.

(** The numeric features of an uploaded row, in schema order. *)
Definition features_obj (cols : list string) (r : list cell) : list float :=
  map (fun c => dict_get (numbers (row_dict cols r)) c PyFloat.nan) FEATURE_ORDER.

(** The columns the flow computes with hold no text: the schema's, which
    go to the classifier, and the two guardrail columns. *)
Definition numeric_inputs (raw : DataFrame cell) : Prop :=
  Forall (fun r => forall c,
            c ∈ FEATURE_ORDER \/ c = "median_temp" \/ c = "median_lactate" ->
            numeric_at (row_dict (columns raw) r) c)
         (rows raw).

(** *** The single-patient form (lines 62-85) *)

(** The preset values of the commonly available features. *)
Definition defaults : gmap string float :=
  list_to_map
    [("median_temp", 37.0%float); ("median_lactate", 1.5%float);
     ("median_wbc", 10.0%float); ("median_heartrate", 90.0%float);
     ("median_resprate", 20.0%float); ("median_sysbp", 110.0%float);
     ("median_diasbp", 70.0%float)].

(** [d[k] = v] on a dict, which keeps its keys in insertion order: an
    existing key keeps its place, a new key goes last. *)
Fixpoint dict_set (k : string) (v : float) (d : list (string * float))
  : list (string * float) :=
  match d with
  | [] => [(k, v)]
  | (k', v') :: d' =>
      if decide (k' = k) then (k, v) :: d' else (k', v') :: dict_set k v d'
  end.

(** [st.number_input(label, value=initial, ...)]: the number the widget
    holds when the page is run, the user's entry or the initial value. *)
Variable number_input : string -> float -> float.

(** The first loop (lines 74-79): the features that have a preset. *)
Definition form_common : list (string * float) :=
  foldl (fun d f => match defaults !! f with
                    | Some x => dict_set f (number_input f x) d
                    | None => d
                    end)
        [] FEATURE_ORDER.

(** The second loop (lines 82-85): the remaining features, initially NaN. *)
Definition form_others (d : list (string * float)) : list (string * float) :=
  foldl (fun d f => if decide (f ∈ d.*1) then d
                    else dict_set f (number_input f PyFloat.nan) d)
        d FEATURE_ORDER.

Definition user_vals : list (string * float) := form_others form_common.

(** [pd.DataFrame([user_vals])] (line 88). *)
Definition form_row : DataFrame float := mkDF (user_vals.*1) [user_vals.*2].

(** What the form holds for feature [f]: its widget starts from the preset
    when there is one and from NaN otherwise. *)
Definition entered (f : string) : float :=
  number_input f (match defaults !! f with Some x => x | None => PyFloat.nan end).

(** What both loops keep true of the dict they fill: distinct keys, all
    of them schema features, each with the number its widget holds. *)
Definition form_inv (d : list (string * float)) : Prop :=
  NoDup d.*1 /\
  forall k v, (k, v) ∈ d -> k ∈ FEATURE_ORDER /\ v = entered k.

(** ** Facts about binary64 comparisons *)

Import PyFloat.

(** Swapping the operands of the specification comparison flips its
    result; NaN stays unordered. *)
Lemma SFcompare_swap (x y : spec_float) :
  SFcompare y x = option_map CompOpp (SFcompare x y).
Proof.
  destruct x as [sx| sx| |sx mx ex], y as [sy| sy| |sy my ey]; simpl;
    try destruct sx; try destruct sy; simpl; try reflexivity.
  all: rewrite (Z.compare_antisym ex ey);
    destruct (ex ?= ey)%Z; simpl; try reflexivity;
    change (Pos.compare_cont Eq my mx) with (Pos.compare my mx);
    change (Pos.compare_cont Eq mx my) with (Pos.compare mx my);
    rewrite (Pos.compare_antisym mx my);
    destruct (Pos.compare mx my); reflexivity.
Qed.

(** On specification floats, [x <= y] excludes [y < x]. *)
Lemma SFleb_not_SFltb (x y : spec_float) :
  SFleb x y = true -> SFltb y x = false.
Proof.
  unfold SFleb, SFltb. rewrite (SFcompare_swap x y).
  destruct (SFcompare x y) as [[]|]; simpl; congruence.
Qed.

(** [p >= thr] makes the test [p < thr] fail. *)
Lemma ge_not_lt (p thr : float) : ge p thr = true -> lt p thr = false.
Proof.
  unfold ge, lt. rewrite FloatAxioms.ltb_spec, FloatAxioms.leb_spec. apply SFleb_not_SFltb.
Qed.

(** [p == thr] entails [p >= thr]. *)
Lemma eq_ge (p thr : float) : eq p thr = true -> ge p thr = true.
Proof.
  unfold eq, ge. rewrite FloatAxioms.eqb_spec, FloatAxioms.leb_spec. unfold SFeqb, SFleb.
  rewrite (SFcompare_swap (Prim2SF p) (Prim2SF thr)).
  destruct (SFcompare (Prim2SF p) (Prim2SF thr)) as [[]|]; simpl; congruence.
Qed.

(** [p < thr] and [p >= thr] never hold together. *)
Lemma lt_ge_excl (p thr : float) : lt p thr = true -> ge p thr = false.
Proof.
  intros H. destruct (ge p thr) eqn:G; [|reflexivity].
  apply ge_not_lt in G. congruence.
Qed.


(** ** The decision rule *)

(** Whenever the test [prob < thr] fails, the rule answers "continue"
    without looking at the record. *)
Lemma map_action_not_lt (p : float) (row : gmap string float) (thr : float) :
  lt p thr = false -> map_action p row thr = CONTINUE.
Proof. intros H. unfold map_action. rewrite H. reflexivity. Qed.

(** Below the threshold the answer is decided by the two guardrails. *)
Lemma map_action_lt (p : float) (row : gmap string float) (thr : float) :
  lt p thr = true ->
  map_action p row thr =
    let t := dict_get row "median_temp" nan in
    let l := dict_get row "median_lactate" nan in
    if (if negb (isnan l)
        then (if negb (isnan t) then lt t GUARD_TEMP_MAX else true)
             && lt l GUARD_LACTATE_MAX
        else (if negb (isnan t) then lt t GUARD_TEMP_MAX else true))
    then STOP else EVALUATE.
Proof. intros H. unfold map_action. rewrite H. reflexivity. Qed.

Lemma dict_get_absent_or_null (row : gmap string float) (k : string) :
  absent_or_null row k -> isnan (dict_get row k nan) = true.
Proof.
  unfold dict_get. intros [-> | (v & -> & Hv)]; [reflexivity | exact Hv].
Qed.

(** C1: for every probability [p], record and threshold with [p >= thr],
    [map_action] returns "Continue / Broaden if worsening", whatever the
    temperature and lactate entries are; a probability equal to the
    threshold is such a [p]. *)
Theorem map_action_continue (p : float) (row : gmap string float) (thr : float) :
  ge p thr = true -> map_action p row thr = CONTINUE.
Proof.
  intros H. apply map_action_not_lt. now apply ge_not_lt.
Qed.

(** The boundary itself: [p == thr] routes to "continue". *)
Lemma map_action_at_threshold (p : float) (row : gmap string float) (thr : float) :
  eq p thr = true -> map_action p row thr = CONTINUE.
Proof.
  intros H. apply map_action_not_lt. now apply ge_not_lt, eq_ge.
Qed.

(** C2: for every [p < thr] and record whose temperature and lactate are
    both absent or NaN, [map_action] returns "Stop / De-escalate". *)
Theorem map_action_no_guardrail (p : float) (row : gmap string float) (thr : float) :
  lt p thr = true ->
  absent_or_null row "median_temp" ->
  absent_or_null row "median_lactate" ->
  map_action p row thr = STOP.
Proof.
  intros Hp Ht Hl. rewrite (map_action_lt _ _ _ Hp). cbv zeta.
  rewrite (dict_get_absent_or_null _ _ Ht), (dict_get_absent_or_null _ _ Hl).
  reflexivity.
Qed.

(** C3: the guardrails are strict: for every [p < thr], a temperature of
    exactly 38.0 or a lactate of exactly 2.0 gives "Evaluate in 24h". *)
Theorem map_action_boundary_fails (p : float) (row : gmap string float) (thr : float) :
  lt p thr = true ->
  row !! "median_temp" = Some 38.0%float \/ row !! "median_lactate" = Some 2.0%float ->
  map_action p row thr = EVALUATE.
Proof.
  intros Hp H. rewrite (map_action_lt _ _ _ Hp). cbv zeta.
  destruct H as [H | H].
  - assert (E : dict_get row "median_temp" nan = 38.0%float)
      by (unfold dict_get; rewrite H; reflexivity).
    rewrite E. change (isnan 38) with false. change (lt 38 GUARD_TEMP_MAX) with false.
    simpl. destruct (negb _); reflexivity.
  - assert (E : dict_get row "median_lactate" nan = 2.0%float)
      by (unfold dict_get; rewrite H; reflexivity).
    rewrite E. change (isnan 2) with false. change (lt 2 GUARD_LACTATE_MAX) with false.
    simpl. rewrite andb_false_r. reflexivity.
Qed.

(** C4: for every [p < thr] and record whose present guardrail values pass
    strictly (temperature below 38.0, lactate below 2.0), [map_action]
    returns "Stop / De-escalate". *)
Theorem map_action_stable (p : float) (row : gmap string float) (thr : float) :
  lt p thr = true ->
  passes_guardrail row "median_temp" 38.0%float ->
  passes_guardrail row "median_lactate" 2.0%float ->
  map_action p row thr = STOP.
Proof.
  intros Hp Ht Hl. rewrite (map_action_lt _ _ _ Hp). cbv zeta.
  unfold passes_guardrail in Ht, Hl. unfold dict_get.
  destruct (row !! "median_temp") as [t|] eqn:Et;
    destruct (row !! "median_lactate") as [l|] eqn:El.
  - specialize (Ht t Logic.eq_refl). specialize (Hl l Logic.eq_refl).
    destruct (isnan l); destruct (isnan t); simpl;
      try (change GUARD_TEMP_MAX with 38.0%float; rewrite Ht by reflexivity);
      try (change GUARD_LACTATE_MAX with 2.0%float; rewrite Hl by reflexivity);
      reflexivity.
  - specialize (Ht t Logic.eq_refl).
    change (isnan nan) with true. destruct (isnan t); simpl;
      try (change GUARD_TEMP_MAX with 38.0%float; rewrite Ht by reflexivity);
      reflexivity.
  - specialize (Hl l Logic.eq_refl).
    change (isnan nan) with true. destruct (isnan l); simpl;
      try (change GUARD_LACTATE_MAX with 2.0%float; rewrite Hl by reflexivity);
      reflexivity.
  - reflexivity.
Qed.

(** What the rule reads of a record under [k]: whether a usable value is
    there, and how it compares with the bound. *)
Lemma same_entry_reads (r1 r2 : gmap string float) (k : string) (bound : float) :
  same_entry r1 r2 k ->
  isnan (dict_get r1 k nan) = isnan (dict_get r2 k nan) /\
  (isnan (dict_get r1 k nan) = false ->
   lt (dict_get r1 k nan) bound = lt (dict_get r2 k nan) bound).
Proof.
  intros [H | [H1 H2]].
  - unfold dict_get. rewrite H. split; [reflexivity | intros _; reflexivity].
  - rewrite (dict_get_absent_or_null _ _ H1), (dict_get_absent_or_null _ _ H2).
    split; [reflexivity | discriminate].
Qed.

(** C10: [map_action] reads nothing of the record but the entries
    "median_temp" and "median_lactate": two records that agree on both get
    the same label for the same probability and threshold, and the label
    is one of the three. *)
Theorem map_action_reads_two_entries (p thr : float) (r1 r2 : gmap string float) :
  same_entry r1 r2 "median_temp" ->
  same_entry r1 r2 "median_lactate" ->
  map_action p r1 thr = map_action p r2 thr /\
  (map_action p r1 thr = STOP \/ map_action p r1 thr = EVALUATE \/
   map_action p r1 thr = CONTINUE).
Proof.
  intros Ht Hl. split.
  - destruct (lt p thr) eqn:Hp.
    + rewrite !(map_action_lt _ _ _ Hp). cbv zeta.
      destruct (same_entry_reads _ _ _ GUARD_TEMP_MAX Ht) as [Nt Ct].
      destruct (same_entry_reads _ _ _ GUARD_LACTATE_MAX Hl) as [Nl Cl].
      rewrite <- Nt, <- Nl.
      destruct (isnan (dict_get r1 "median_temp" nan));
        destruct (isnan (dict_get r1 "median_lactate" nan)); simpl;
        rewrite <- ?Ct, <- ?Cl by reflexivity; reflexivity.
    + rewrite !(map_action_not_lt _ _ _ Hp). reflexivity.
  - unfold map_action. destruct (lt p thr); [|auto].
    cbv zeta. match goal with |- context [if ?b then STOP else EVALUATE] =>
      destruct b end; auto.
Qed.

(** ** Tables: picking cells by label *)

Lemma flat_map_ext_elem {A B} (f g : A -> list B) (l : list A) :
  (forall x, x ∈ l -> f x = g x) -> flat_map f l = flat_map g l.
Proof.
  induction l as [|a l IH]; intros H; [reflexivity|]. simpl.
  rewrite (H a) by constructor.
  rewrite IH; [reflexivity|]. intros x Hx. apply H. now constructor.
Qed.

Lemma flat_map_singleton {A B} (f : A -> B) (l : list A) :
  flat_map (fun x => [f x]) l = map f l.
Proof. induction l as [|a l IH]; simpl; congruence. Qed.

Lemma pick_not_in {A} (c : string) (cols : list string) (r : list A) :
  c ∉ cols -> pick c cols r = [].
Proof.
  revert r. induction cols as [|k cols IH]; intros r Hc; [reflexivity|].
  destruct r as [|v r]; [reflexivity|]. simpl.
  apply not_elem_of_cons in Hc as [Hne Hc].
  destruct (decide (k = c)) as [->|_]; [congruence | now apply IH].
Qed.

Lemma pick_app {A} (c : string) (cols cols' : list string) (r r' : list A) :
  length r = length cols ->
  pick c (cols ++ cols') (r ++ r') = pick c cols r ++ pick c cols' r'.
Proof.
  revert r. induction cols as [|k cols IH]; intros [|v r] Hlen;
    simpl in *; try discriminate; [reflexivity|].
  injection Hlen as Hlen.
  destruct (decide (k = c)); simpl; now rewrite IH.
Qed.

Lemma pick_self (c : string) (cols : list string) :
  NoDup cols -> c ∈ cols -> pick c cols cols = [c].
Proof.
  induction cols as [|k cols IH]; intros Hnd Hc.
  - now apply elem_of_nil in Hc.
  - apply NoDup_cons in Hnd as [Hk Hnd]. simpl.
    destruct (decide (k = c)) as [->|Hne].
    + now rewrite pick_not_in.
    + apply elem_of_cons in Hc as [->|Hc]; [congruence | now apply IH].
Qed.

Lemma pick_replicate {A} (c : string) (cols : list string) (v : A) :
  NoDup cols -> c ∈ cols -> pick c cols (replicate (length cols) v) = [v].
Proof.
  induction cols as [|k cols IH]; intros Hnd Hc.
  - now apply elem_of_nil in Hc.
  - apply NoDup_cons in Hnd as [Hk Hnd]. simpl.
    destruct (decide (k = c)) as [->|Hne].
    + now rewrite pick_not_in.
    + apply elem_of_cons in Hc as [->|Hc]; [congruence | now apply IH].
Qed.

(** Picking every label of a table in turn rebuilds the row. *)
Lemma flat_map_pick_id {A} (cols : list string) (r : list A) :
  NoDup cols -> length r = length cols ->
  flat_map (fun c => pick c cols r) cols = r.
Proof.
  revert r. induction cols as [|k cols IH]; intros [|v r] Hnd Hlen;
    simpl in *; try discriminate; [reflexivity|].
  injection Hlen as Hlen. apply NoDup_cons in Hnd as [Hk Hnd].
  destruct (decide (k = k)) as [_|]; [|congruence].
  rewrite pick_not_in by assumption. simpl. f_equal.
  transitivity (flat_map (fun c => pick c cols r) cols); [|now apply IH].
  apply flat_map_ext_elem. intros c Hc.
  destruct (decide (k = c)) as [->|_]; [contradiction | reflexivity].
Qed.

(** ** Tables: a row as a record *)

Lemma to_dict_cons (k : string) (v : float) (cols : list string) (r : list float) :
  to_dict (k :: cols) (v :: r) = to_dict cols r ∪ {[ k := v ]}.
Proof.
  unfold to_dict. simpl. rewrite reverse_cons, list_to_map_app. simpl.
  now rewrite insert_empty.
Qed.

Lemma to_dict_not_in (c : string) (cols : list string) (r : list float) :
  c ∉ cols -> to_dict cols r !! c = None.
Proof.
  intros Hc. unfold to_dict. apply not_elem_of_list_to_map_1.
  intros ((k & v) & -> & Hin)%list_elem_of_fmap.
  rewrite elem_of_reverse in Hin. apply elem_of_zip_l in Hin. contradiction.
Qed.

(** Under distinct labels a row's record holds, under each label, the
    cell that stands under it. *)
Lemma pick_to_dict (c : string) (cols : list string) (r : list float) :
  NoDup cols -> length r = length cols ->
  pick c cols r = option_list (to_dict cols r !! c).
Proof.
  revert r. induction cols as [|k cols IH]; intros [|v r] Hnd Hlen;
    simpl in *; try discriminate; [reflexivity|].
  injection Hlen as Hlen. apply NoDup_cons in Hnd as [Hk Hnd].
  rewrite to_dict_cons. destruct (decide (k = c)) as [->|Hne].
  - rewrite pick_not_in by assumption.
    rewrite lookup_union_r by now apply to_dict_not_in.
    now rewrite lookup_singleton_eq.
  - rewrite lookup_union_l by now apply lookup_singleton_ne.
    now apply IH.
Qed.

Lemma to_dict_in (c : string) (cols : list string) (r : list float) :
  length r = length cols -> c ∈ cols -> is_Some (to_dict cols r !! c).
Proof.
  revert r. induction cols as [|k cols IH]; intros [|v r] Hlen Hc;
    simpl in *; try discriminate.
  - now apply elem_of_nil in Hc.
  - injection Hlen as Hlen. rewrite to_dict_cons, lookup_union.
    destruct (decide (k = c)) as [->|Hne].
    + rewrite lookup_singleton_eq. destruct (to_dict cols r !! c); eauto.
    + apply elem_of_cons in Hc as [->|Hc]; [congruence|].
      destruct (IH r Hlen Hc) as [x ->]. rewrite lookup_singleton_ne by assumption.
      eauto.
Qed.

(** ** Feature alignment *)

Lemma df_eta {A} (df : DataFrame A) : mkDF (columns df) (rows df) = df.
Proof. now destruct df. Qed.

Lemma map_ext_Forall {A B} (f g : A -> B) (l : list A) :
  Forall (fun x => f x = g x) l -> map f l = map g l.
Proof. induction 1; simpl; congruence. Qed.

(** The loop appends the missing labels on the right and pads every row
    with as many NaN. *)
Lemma fill_missing_eq (feats : list string) (df : DataFrame float) :
  fill_missing feats df =
  mkDF (columns df ++ missing feats (columns df))
       (map (fun r => r ++ replicate (length (missing feats (columns df))) nan)
            (rows df)).
Proof.
  revert df. induction feats as [|c feats IH]; intros [cols rws]; simpl.
  - rewrite app_nil_r. f_equal. rewrite <- (map_id rws) at 1.
    apply map_ext. intros r. now rewrite app_nil_r.
  - unfold fill_missing in *. simpl. destruct (decide (c ∈ cols)) as [Hc|Hc].
    + apply (IH (mkDF cols rws)).
    + unfold setitem_scalar. simpl. destruct (decide (c ∈ cols)); [contradiction|].
      rewrite IH. simpl. rewrite <- app_assoc. simpl. f_equal.
      rewrite map_map. apply map_ext. intros r. now rewrite <- app_assoc.
Qed.

Lemma missing_spec (feats cols : list string) :
  NoDup cols ->
  NoDup (cols ++ missing feats cols) /\
  (forall c, c ∈ feats -> c ∈ cols ++ missing feats cols).
Proof.
  revert cols. induction feats as [|c feats IH]; intros cols Hnd; simpl.
  - rewrite app_nil_r. split; [assumption|]. intros c Hc. now apply elem_of_nil in Hc.
  - destruct (decide (c ∈ cols)) as [Hc|Hc].
    + destruct (IH cols Hnd) as [H1 H2]. split; [assumption|].
      intros x [->|Hx]%elem_of_cons; [|now apply H2].
      apply elem_of_app. now left.
    + assert (Hnd' : NoDup (cols ++ [c])).
      { apply NoDup_app. split; [assumption|]. split.
        - intros x Hx ->%list_elem_of_singleton. contradiction.
        - apply NoDup_singleton. }
      destruct (IH (cols ++ [c]) Hnd') as [H1 H2].
      rewrite <- app_assoc in H1, H2. simpl in H1, H2. split; [assumption|].
      intros x [->|Hx]%elem_of_cons; [|now apply H2].
      apply elem_of_app. right. now constructor.
Qed.

Lemma missing_none (feats cols : list string) :
  (forall c, c ∈ feats -> c ∈ cols) -> missing feats cols = [].
Proof.
  induction feats as [|c feats IH]; intros H; simpl; [reflexivity|].
  destruct (decide (c ∈ cols)) as [_|Hc].
  - apply IH. intros x Hx. apply H. now constructor.
  - destruct Hc. apply H. constructor.
Qed.

(** In a padded row, the cell under a label is the one the original row
    held, or NaN when it held none. *)
Lemma pick_filled (c : string) (cols extra : list string) (r : list float) :
  NoDup (cols ++ extra) -> length r = length cols -> c ∈ cols ++ extra ->
  pick c (cols ++ extra) (r ++ replicate (length extra) nan) =
  [dict_get (to_dict cols r) c nan].
Proof.
  intros (Hnd & Hdisj & Hnd')%NoDup_app Hlen Hc.
  rewrite pick_app by assumption. unfold dict_get.
  destruct (decide (c ∈ cols)) as [Hin|Hout].
  - rewrite (pick_not_in c extra) by now apply Hdisj.
    rewrite app_nil_r, pick_to_dict by assumption.
    destruct (to_dict_in c cols r Hlen Hin) as [v ->]. reflexivity.
  - rewrite pick_not_in, to_dict_not_in by assumption.
    apply elem_of_app in Hc as [Hc|Hc]; [contradiction|].
    now rewrite pick_replicate.
Qed.

(** A padded row read as a record answers [get(k, nan)] as the original
    row does. *)
Lemma dict_get_filled (k : string) (cols extra : list string) (r : list float) :
  NoDup (cols ++ extra) -> length r = length cols ->
  dict_get (to_dict (cols ++ extra) (r ++ replicate (length extra) nan)) k nan =
  dict_get (to_dict cols r) k nan.
Proof.
  intros Hnd Hlen.
  destruct (decide (k ∈ cols ++ extra)) as [Hin|Hout].
  - pose proof (pick_filled k cols extra r Hnd Hlen Hin) as E.
    rewrite pick_to_dict in E; [|assumption|].
    + unfold dict_get at 1.
      destruct (to_dict (cols ++ extra) _ !! k); simpl in E; congruence.
    + rewrite !length_app, length_replicate. congruence.
  - unfold dict_get. rewrite !to_dict_not_in; [reflexivity| |assumption].
    intros Hk. apply Hout, elem_of_app. now left.
Qed.

(** [ensure_feature_df] never raises on a well-formed table, and this is
    what it leaves in the caller's table and what it returns. *)
Lemma ensure_feature_df_spec (df : DataFrame float) :
  wf_df df ->
  ensure_feature_df df =
  (fill_missing FEATURE_ORDER df,
   Some (mkDF FEATURE_ORDER
           (map (fun r => map (fun c => dict_get (to_dict (columns df) r) c nan)
                              FEATURE_ORDER)
                (rows df)))).
Proof.
  intros [Hnd Hrows]. unfold ensure_feature_df. cbv zeta. f_equal.
  rewrite fill_missing_eq. unfold getitem. simpl.
  destruct (missing_spec FEATURE_ORDER (columns df) Hnd) as [Hnd' Hall].
  set (extra := missing FEATURE_ORDER (columns df)) in *.
  destruct (decide _) as [_|Hno].
  2: { destruct Hno. apply Forall_forall. exact Hall. }
  f_equal. f_equal.
  - rewrite (flat_map_ext_elem _ (fun c => [c])).
    + rewrite flat_map_singleton. apply map_id.
    + intros c Hc. apply pick_self; auto.
  - rewrite map_map. apply map_ext_Forall.
    eapply Forall_impl; [exact Hrows|]. intros r Hlen. simpl in Hlen.
    rewrite <- flat_map_singleton. apply flat_map_ext_elem.
    intros c Hc. apply pick_filled; auto.
Qed.

(** Reading a row back label by label, through its record, rebuilds it. *)
Lemma map_dict_get_id (cols : list string) (r : list float) :
  NoDup cols -> length r = length cols ->
  map (fun c => dict_get (to_dict cols r) c nan) cols = r.
Proof.
  intros Hnd Hlen.
  transitivity (flat_map (fun c => pick c cols r) cols);
    [|now apply flat_map_pick_id].
  rewrite <- flat_map_singleton. apply flat_map_ext_elem. intros c Hc.
  rewrite pick_to_dict by assumption. unfold dict_get.
  destruct (to_dict_in c cols r Hlen Hc) as [v ->]. reflexivity.
Qed.

(** On a table that already has every schema label the loop changes
    nothing. *)
Lemma fill_missing_present (feats : list string) (df : DataFrame float) :
  (forall c, c ∈ feats -> c ∈ columns df) -> fill_missing feats df = df.
Proof.
  intros H. rewrite fill_missing_eq, (missing_none _ _ H). simpl.
  rewrite app_nil_r. transitivity (mkDF (columns df) (rows df)); [|apply df_eta].
  f_equal. transitivity (map id (rows df)); [|apply map_id].
  apply map_ext. intros r. apply app_nil_r.
Qed.

Lemma ensure_feature_df_fixed (df : DataFrame float) :
  wf_df df -> columns df = FEATURE_ORDER ->
  ensure_feature_df df = (df, Some df).
Proof.
  intros Hwf Hcols. rewrite (ensure_feature_df_spec df Hwf).
  destruct Hwf as [Hnd Hrows]. f_equal.
  - apply fill_missing_present. intros c Hc. now rewrite Hcols.
  - f_equal. transitivity (mkDF (columns df) (rows df)); [|apply df_eta].
    rewrite <- Hcols. f_equal.
    transitivity (map id (rows df)); [|apply map_id]. apply map_ext_Forall.
    eapply Forall_impl; [exact Hrows|]. intros r Hlen. simpl in Hlen.
    now apply map_dict_get_id.
Qed.

(** C5: on every table (distinct labels, one cell per label in each row)
    [ensure_feature_df] raises nothing and returns a table whose labels
    are the schema's, in schema order, with the input's rows in order; in
    each row the cell under a schema label is the input's cell under that
    label, and NaN when the input has no such column.  Input columns
    outside the schema are not in the result. *)
Theorem ensure_feature_df_aligns (df : DataFrame float) :
  wf_df df ->
  exists X,
    (ensure_feature_df df).2 = Some X /\
    columns X = FEATURE_ORDER /\
    rows X = map (fun r => map (fun c => dict_get (to_dict (columns df) r) c nan)
                               FEATURE_ORDER)
                 (rows df).
Proof.
  intros Hwf. rewrite (ensure_feature_df_spec df Hwf). simpl. eauto.
Qed.

(** C6: alignment is idempotent: a table that already has exactly the
    schema's labels, in schema order, is returned identical (and is itself
    left untouched). *)
Theorem ensure_feature_df_idempotent (df : DataFrame float) :
  wf_df df -> columns df = FEATURE_ORDER ->
  (ensure_feature_df df).2 = Some df /\ (ensure_feature_df df).1 = df.
Proof.
  intros Hwf Hcols. now rewrite (ensure_feature_df_fixed df Hwf Hcols).
Qed.

(** The result of an alignment is well formed when the schema's labels are
    distinct. *)
Lemma ensure_feature_df_wf (df X : DataFrame float) :
  NoDup FEATURE_ORDER -> wf_df df -> (ensure_feature_df df).2 = Some X ->
  wf_df X /\ columns X = FEATURE_ORDER.
Proof.
  intros Hnd Hwf. rewrite (ensure_feature_df_spec df Hwf). simpl.
  intros [= <-]. split; [|reflexivity]. split; [exact Hnd|]. simpl.
  apply Forall_map, Forall_forall. intros r _. simpl. apply length_map.
Qed.

(** Aligning twice is aligning once. *)
Lemma ensure_feature_df_twice (df X : DataFrame float) :
  NoDup FEATURE_ORDER -> wf_df df -> (ensure_feature_df df).2 = Some X ->
  (ensure_feature_df X).2 = Some X.
Proof.
  intros Hnd Hwf HX.
  destruct (ensure_feature_df_wf df X Hnd Hwf HX) as [HwfX Hcols].
  now rewrite (ensure_feature_df_fixed X HwfX Hcols).
Qed.

(** C7: on a table that has none of the schema's columns,
    [ensure_feature_df] returns a table with every schema column, all of
    them NaN, and as many rows as the input. *)
Theorem ensure_feature_df_all_missing (df : DataFrame float) :
  wf_df df ->
  (forall c, c ∈ FEATURE_ORDER -> c ∉ columns df) ->
  exists X,
    (ensure_feature_df df).2 = Some X /\
    columns X = FEATURE_ORDER /\
    df_len X = df_len df /\
    Forall (fun r => r = replicate (length FEATURE_ORDER) nan) (rows X).
Proof.
  intros Hwf Hnone. rewrite (ensure_feature_df_spec df Hwf). simpl.
  eexists. split; [reflexivity|]. simpl. split; [reflexivity|]. split.
  - unfold df_len. simpl. apply length_map.
  - apply Forall_map, Forall_forall. intros r _. simpl.
    assert (E : forall l : list string, (forall c, c ∈ l -> c ∉ columns df) ->
                map (fun c => dict_get (to_dict (columns df) r) c nan) l =
                replicate (length l) nan).
    { induction l as [|c l IH]; intros Hl; [reflexivity|]. simpl.
      unfold dict_get at 1. rewrite to_dict_not_in by (apply Hl; constructor).
      f_equal. apply IH. intros x Hx. apply Hl. now constructor. }
    now apply E.
Qed.

(** ** The flows *)

(** What is assumed of the classifier: one probability per row, and the
    probability of a row does not depend on the other rows of the table. *)
Hypothesis predict_proba_length :
  forall X, length (predict_proba X) = df_len X.
Hypothesis predict_proba_rowwise :
  forall X i r, rows X !! i = Some r ->
                predict_proba X !! i = predict_proba (one_row (columns X) r) !! 0%nat.

Lemma lookup_map {A B} (f : A -> B) (l : list A) (i : nat) :
  map f l !! i = option_map f (l !! i).
Proof. revert i. induction l as [|a l IH]; intros [|i]; simpl; auto. Qed.

Lemma map_action_ext (p thr : float) (d1 d2 : gmap string float) :
  (forall k, dict_get d1 k nan = dict_get d2 k nan) ->
  map_action p d1 thr = map_action p d2 thr.
Proof. intros H. unfold map_action. now rewrite !H. Qed.

Lemma wf_one_row (raw : DataFrame float) (i : nat) (r : list float) :
  wf_df raw -> rows raw !! i = Some r -> wf_df (one_row (columns raw) r).
Proof.
  intros [Hnd Hrows] Hr. split; [exact Hnd|]. simpl.
  apply Forall_cons. split; [|constructor].
  eapply (proj1 (Forall_forall _ _) Hrows), list_elem_of_lookup_2, Hr.
Qed.

(** The single-record computation on a one-row table. *)
Lemma predict_one_spec (cols : list string) (r : list float) :
  wf_df (one_row cols r) ->
  exists p,
    predict_proba (one_row FEATURE_ORDER (features cols r)) !! 0%nat = Some p /\
    predict_one (one_row cols r) =
    Some (one_row FEATURE_ORDER (features cols r), p,
          map_action p (to_dict cols r) THRESHOLD).
Proof.
  intros Hwf. unfold predict_one.
  rewrite (ensure_feature_df_spec _ Hwf). simpl.
  fold (features cols r). fold (one_row FEATURE_ORDER (features cols r)).
  destruct (predict_proba (one_row FEATURE_ORDER (features cols r)) !! 0%nat)
    as [p|] eqn:Ep.
  2: { apply lookup_ge_None_1 in Ep. rewrite predict_proba_length in Ep.
       unfold df_len in Ep. simpl in Ep. lia. }
  exists p. split; [reflexivity|]. simpl.
  rewrite fill_missing_eq. unfold iloc_to_dict. simpl. do 2 f_equal.
  destruct Hwf as [Hnd Hrows]. simpl in Hnd, Hrows.
  apply Forall_cons in Hrows as [Hlen _].
  apply map_action_ext. intros k. apply dict_get_filled; [|assumption].
  now apply missing_spec.
Qed.

(** Assigning a column under a label the table lacks appends it. *)
Lemma setitem_new {A} (c : string) (vals : list A) (df : DataFrame A) :
  c ∉ columns df -> length vals = df_len df ->
  setitem c vals df =
  Some (mkDF (columns df ++ [c]) (zip_with (fun v r => r ++ [v]) vals (rows df))).
Proof.
  intros Hc Hlen. unfold setitem.
  destruct (decide (length vals = df_len df)); [|contradiction].
  destruct (decide (c ∈ columns df)); [contradiction | reflexivity].
Qed.


(** ** More on the decision rule *)

Ltac cmp_cases :=
  repeat match goal with
  | |- context [(?a ?= ?b)%Z] => destruct (Z.compare_spec a b)
  | H : context [(?a ?= ?b)%Z] |- _ => destruct (Z.compare_spec a b)
  | |- context [(?a ?= ?b)%positive] => destruct (Pos.compare_spec a b)
  | H : context [(?a ?= ?b)%positive] |- _ => destruct (Pos.compare_spec a b)
  end.

Lemma SFleb_SFltb_trans (x y z : spec_float) :
  SFleb x y = true -> SFltb y z = true -> SFltb x z = true.
Proof.
  unfold SFleb, SFltb.
  destruct x as [sx| sx| |sx mx ex], y as [sy| sy| |sy my ey], z as [sz| sz| |sz mz ez];
    simpl; try destruct sx; try destruct sy; try destruct sz; simpl;
    try congruence;
    change (Pos.compare_cont Eq) with Pos.compare;
    intros H1 H2; cmp_cases; simpl in *; subst; try congruence; try lia.
Qed.

Lemma SFltb_SFleb_trans (x y z : spec_float) :
  SFltb x y = true -> SFleb y z = true -> SFltb x z = true.
Proof.
  unfold SFleb, SFltb.
  destruct x as [sx| sx| |sx mx ex], y as [sy| sy| |sy my ey], z as [sz| sz| |sz mz ez];
    simpl; try destruct sx; try destruct sy; try destruct sz; simpl;
    try congruence;
    change (Pos.compare_cont Eq) with Pos.compare;
    intros H1 H2; cmp_cases; simpl in *; subst; try congruence; try lia.
Qed.

(** [p <= p'] and [p' < t] give [p < t]. *)
Lemma le_lt_trans (p p' t : float) :
  ge p' p = true -> lt p' t = true -> lt p t = true.
Proof.
  unfold ge, lt. rewrite !FloatAxioms.ltb_spec, FloatAxioms.leb_spec.
  apply SFleb_SFltb_trans.
Qed.

(** [p < t'] and [t' <= t] give [p < t]. *)
Lemma lt_le_trans (p t' t : float) :
  lt p t' = true -> ge t t' = true -> lt p t = true.
Proof.
  unfold ge, lt. rewrite !FloatAxioms.ltb_spec, FloatAxioms.leb_spec.
  apply SFltb_SFleb_trans.
Qed.

(** Only NaN differs from itself, and NaN is below nothing and above
    nothing. *)
Lemma SF_nan_unordered (x y : spec_float) :
  SFeqb x x = false -> SFltb x y = false /\ SFltb y x = false.
Proof.
  unfold SFeqb, SFltb.
  destruct x as [sx| sx| |sx mx ex]; simpl.
  - discriminate.
  - destruct sx; discriminate.
  - intros _. destruct y; auto.
  - rewrite Z.compare_refl. change (Pos.compare_cont Eq mx mx) with (Pos.compare mx mx).
    rewrite Pos.compare_refl. destruct sx; discriminate.
Qed.

Lemma isnan_unordered (x y : float) :
  isnan x = true -> lt x y = false /\ lt y x = false.
Proof.
  unfold isnan, PrimFloat.is_nan, lt. intros H%negb_true_iff.
  rewrite FloatAxioms.eqb_spec in H. rewrite !FloatAxioms.ltb_spec.
  now apply SF_nan_unordered.
Qed.

Lemma labels_distinct : STOP <> EVALUATE /\ STOP <> CONTINUE /\ EVALUATE <> CONTINUE.
Proof. repeat split; discriminate. Qed.

(** The guardrail test of lines 39-40 as a proposition. *)
Lemma guardrail_test_iff (row : gmap string float) (k : string) (bound : float) :
  (if negb (isnan (dict_get row k nan)) then lt (dict_get row k nan) bound else true)
  = true <-> passes_guardrail row k bound.
Proof.
  unfold passes_guardrail, dict_get. destruct (row !! k) as [v|].
  - split.
    + intros H v' [= <-] Hv. now rewrite Hv in H.
    + intros H. destruct (isnan v) eqn:Hv; [reflexivity|]. simpl. now apply H.
  - split; [intros _ v' [=] | reflexivity].
Qed.

Lemma guardrail_test_fails_iff (row : gmap string float) (k : string) (bound : float) :
  (if negb (isnan (dict_get row k nan)) then lt (dict_get row k nan) bound else true)
  = false <-> fails_guardrail row k bound.
Proof.
  unfold fails_guardrail, dict_get. destruct (row !! k) as [v|].
  - split.
    + intros H. exists v. destruct (isnan v); [discriminate|]. auto.
    + intros (v' & [= <-] & Hv & Hlt). now rewrite Hv.
  - split; [discriminate | intros (v' & [=] & _)].
Qed.

(** Below the threshold the label is "stop" when both tests pass and
    "evaluate" otherwise. *)
Lemma map_action_lt_tests (p : float) (row : gmap string float) (thr : float) :
  lt p thr = true ->
  map_action p row thr =
  if (if negb (isnan (dict_get row "median_temp" nan))
      then lt (dict_get row "median_temp" nan) GUARD_TEMP_MAX else true)
     && (if negb (isnan (dict_get row "median_lactate" nan))
         then lt (dict_get row "median_lactate" nan) GUARD_LACTATE_MAX else true)
  then STOP else EVALUATE.
Proof.
  intros Hp. rewrite (map_action_lt _ _ _ Hp). cbv zeta.
  destruct (negb (isnan (dict_get row "median_lactate" nan)));
    [reflexivity | now rewrite andb_true_r].
Qed.

(** X1: a NaN probability or a NaN threshold always gives "Continue /
    Broaden if worsening": the test [prob < thr] is false on NaN, so the
    guardrails are not consulted. *)
Theorem map_action_nan (p : float) (row : gmap string float) (thr : float) :
  isnan p = true \/ isnan thr = true -> map_action p row thr = CONTINUE.
Proof.
  intros H. apply map_action_not_lt.
  destruct H as [H|H].
  - exact (proj1 (isnan_unordered p thr H)).
  - exact (proj2 (isnan_unordered thr p H)).
Qed.

(** X2: "Stop / De-escalate" is returned exactly when the probability is
    below the threshold and every present guardrail value is strictly
    below its bound; in particular never with a recorded temperature of
    38.0 or more, or a recorded lactate of 2.0 or more. *)
Theorem map_action_stop_iff (p : float) (row : gmap string float) (thr : float) :
  map_action p row thr = STOP <->
  lt p thr = true /\
  passes_guardrail row "median_temp" 38.0%float /\
  passes_guardrail row "median_lactate" 2.0%float.
Proof.
  destruct labels_distinct as (H1 & H2 & H3).
  rewrite <- !guardrail_test_iff.
  destruct (lt p thr) eqn:Hp.
  - rewrite (map_action_lt_tests _ _ _ Hp).
    change GUARD_TEMP_MAX with 38.0%float. change GUARD_LACTATE_MAX with 2.0%float.
    destruct (if negb (isnan (dict_get row "median_temp" nan)) then _ else _);
      destruct (if negb (isnan (dict_get row "median_lactate" nan)) then _ else _);
      simpl;
      (split;
       [ intros H; first [congruence | repeat split; reflexivity]
       | intros (A & B & C); first [reflexivity | congruence] ]).
  - rewrite (map_action_not_lt _ _ _ Hp). split; [congruence|].
    intros (? & _); congruence.
Qed.

(** X3: "Evaluate in 24h" is returned exactly when the probability is
    below the threshold and some guardrail value is present and not
    strictly below its bound. *)
Theorem map_action_evaluate_iff (p : float) (row : gmap string float) (thr : float) :
  map_action p row thr = EVALUATE <->
  lt p thr = true /\
  (fails_guardrail row "median_temp" 38.0%float \/
   fails_guardrail row "median_lactate" 2.0%float).
Proof.
  destruct labels_distinct as (H1 & H2 & H3).
  rewrite <- !guardrail_test_fails_iff.
  destruct (lt p thr) eqn:Hp.
  - rewrite (map_action_lt_tests _ _ _ Hp).
    change GUARD_TEMP_MAX with 38.0%float. change GUARD_LACTATE_MAX with 2.0%float.
    destruct (if negb (isnan (dict_get row "median_temp" nan)) then _ else _);
      destruct (if negb (isnan (dict_get row "median_lactate" nan)) then _ else _);
      simpl;
      (split;
       [ intros H;
         first [ congruence
               | split; [reflexivity | first [left; reflexivity | right; reflexivity]] ]
       | intros (A & [B|B]); first [reflexivity | congruence] ]).
  - rewrite (map_action_not_lt _ _ _ Hp). split; [congruence|].
    intros (? & _); congruence.
Qed.

Lemma severity_le_continue (a : string) : severity a <= severity CONTINUE.
Proof.
  unfold severity. repeat destruct (decide _); try lia; discriminate.
Qed.

(** X4: the rule is monotone: for the same record, a probability at least
    as high and a threshold at most as high never give a less cautious
    label (stop < evaluate < continue). *)
Theorem map_action_monotone (p p' thr thr' : float) (row : gmap string float) :
  ge p' p = true -> ge thr thr' = true ->
  severity (map_action p row thr) <= severity (map_action p' row thr').
Proof.
  intros Hp Ht. destruct (lt p' thr') eqn:H'.
  - assert (H : lt p thr = true).
    { apply (lt_le_trans p thr' thr); [|exact Ht].
      now apply (le_lt_trans p p' thr'). }
    rewrite (map_action_lt p row thr H), (map_action_lt p' row thr' H'). lia.
  - rewrite (map_action_not_lt _ _ _ H'). apply severity_le_continue.
Qed.

(** ** More on feature alignment *)

Lemma missing_covers (feats cols : list string) (c : string) :
  c ∈ feats -> c ∈ cols ++ missing feats cols.
Proof.
  revert cols. induction feats as [|f feats IH]; intros cols Hc.
  - now apply elem_of_nil in Hc.
  - simpl. destruct (decide (f ∈ cols)) as [Hf|Hf].
    + apply elem_of_cons in Hc as [->|Hc]; [|now apply IH].
      apply elem_of_app. now left.
    + apply elem_of_cons in Hc as [->|Hc].
      * apply elem_of_app. right. constructor.
      * specialize (IH (cols ++ [f]) Hc). rewrite <- app_assoc in IH. exact IH.
Qed.

Lemma missing_from_schema (feats cols : list string) (c : string) :
  c ∈ missing feats cols -> c ∈ feats.
Proof.
  revert cols. induction feats as [|f feats IH]; intros cols Hc; simpl in Hc.
  - exact Hc.
  - destruct (decide (f ∈ cols)).
    + constructor. now apply (IH cols).
    + apply elem_of_cons in Hc as [->|Hc]; [constructor|].
      constructor. now apply (IH (cols ++ [f])).
Qed.

Lemma pick_map {A B} (g : A -> B) (c : string) (cols : list string) (r : list A) :
  pick c cols (map g r) = map g (pick c cols r).
Proof.
  revert r. induction cols as [|k cols IH]; intros [|v r]; simpl; try reflexivity.
  destruct (decide (k = c)); simpl; now rewrite IH.
Qed.

(** The record of a row computed label by label holds, under each label,
    what was computed for it. *)
Lemma to_dict_map (g : string -> float) (l : list string) (c : string) :
  NoDup l -> c ∈ l -> to_dict l (map g l) !! c = Some (g c).
Proof.
  intros Hnd Hc.
  pose proof (pick_to_dict c l (map g l) Hnd (length_map _ _)) as E.
  rewrite pick_map, (pick_self c l Hnd Hc) in E. simpl in E.
  destruct (to_dict l (map g l) !! c); simpl in E; congruence.
Qed.

(** X5: the in-place effect of [ensure_feature_df] on the caller's table
    is append-only: the table keeps its columns and rows, every row is
    padded on the right with NaN, the labels after the call are those it
    had together with the schema's, and they stay distinct. *)
Theorem ensure_feature_df_in_place (df : DataFrame float) :
  wf_df df ->
  wf_df (ensure_feature_df df).1 /\
  (forall c, c ∈ columns (ensure_feature_df df).1 <->
             c ∈ columns df \/ c ∈ FEATURE_ORDER) /\
  exists extra,
    columns (ensure_feature_df df).1 = columns df ++ extra /\
    rows (ensure_feature_df df).1 =
    map (fun r => r ++ replicate (length extra) nan) (rows df).
Proof.
  intros [Hnd Hrows]. unfold ensure_feature_df. cbv zeta. simpl.
  rewrite fill_missing_eq. simpl.
  destruct (missing_spec FEATURE_ORDER (columns df) Hnd) as [Hnd' _].
  split; [|split].
  - split; [exact Hnd'|]. simpl. apply Forall_map.
    eapply Forall_impl; [exact Hrows|]. intros r Hlen. simpl in *.
    rewrite !length_app, length_replicate. congruence.
  - intros c. rewrite elem_of_app. split.
    + intros [H|H]; [now left | right; eapply missing_from_schema, H].
    + intros [H|H]; [now left|]. apply elem_of_app. now apply missing_covers.
  - eexists. split; reflexivity.
Qed.

(** X6: whatever the table, its labels distinct or not, the column
    selection of [ensure_feature_df] finds every schema label (no
    [KeyError]), and the result has as many rows as the input. *)
Theorem ensure_feature_df_no_key_error (df : DataFrame float) :
  exists X, (ensure_feature_df df).2 = Some X /\ df_len X = df_len df.
Proof.
  unfold ensure_feature_df. cbv zeta. simpl. rewrite fill_missing_eq.
  unfold getitem. simpl. destruct (decide _) as [_|Hno].
  - eexists. split; [reflexivity|]. unfold df_len. simpl.
    now rewrite !length_map.
  - destruct Hno. apply Forall_forall. intros c Hc. now apply missing_covers.
Qed.

(** Selecting distinct labels of a well-formed table. *)
Lemma getitem_spec (names : list string) (df : DataFrame float) :
  wf_df df -> (forall c, c ∈ names -> c ∈ columns df) ->
  getitem names df =
  Some (mkDF names
          (map (fun r => map (fun c => dict_get (to_dict (columns df) r) c nan) names)
               (rows df))).
Proof.
  intros [Hnd Hrows] Hsub. unfold getitem.
  destruct (decide _) as [_|Hno].
  2: { destruct Hno. now apply Forall_forall. }
  f_equal. f_equal.
  - rewrite (flat_map_ext_elem _ (fun c => [c])).
    + rewrite flat_map_singleton. apply map_id.
    + intros c Hc. apply pick_self; auto.
  - apply map_ext_Forall. eapply Forall_impl; [exact Hrows|].
    intros r Hlen. simpl in Hlen. rewrite <- flat_map_singleton.
    apply flat_map_ext_elem. intros c Hc.
    rewrite pick_to_dict by assumption. unfold dict_get.
    destruct (to_dict_in c (columns df) r Hlen (Hsub c Hc)) as [v ->]. reflexivity.
Qed.

(** X7: the aligned table does not depend on the order of the input's
    columns nor on its columns outside the schema: selecting first any
    distinct labels of the input that include every schema label it has,
    in any order, and aligning then, gives the same table as aligning
    directly. *)
Theorem ensure_feature_df_after_selection (names : list string) (df : DataFrame float) :
  wf_df df -> NoDup names ->
  (forall c, c ∈ names -> c ∈ columns df) ->
  (forall c, c ∈ FEATURE_ORDER -> c ∈ columns df -> c ∈ names) ->
  exists df', getitem names df = Some df' /\
              (ensure_feature_df df').2 = (ensure_feature_df df).2.
Proof.
  intros Hwf Hnd Hsub Hsch. rewrite (getitem_spec names df Hwf Hsub).
  eexists. split; [reflexivity|].
  rewrite (ensure_feature_df_spec df Hwf).
  rewrite ensure_feature_df_spec.
  2: { split; [exact Hnd|]. simpl. apply Forall_map, Forall_forall.
       intros r _. simpl. apply length_map. }
  simpl. do 2 f_equal. rewrite map_map. apply map_ext. intros r.
  apply map_ext_Forall, Forall_forall. intros c Hc.
  destruct (decide (c ∈ names)) as [Hin|Hout].
  - unfold dict_get at 1. now rewrite to_dict_map.
  - unfold dict_get. rewrite to_dict_not_in by assumption.
    rewrite to_dict_not_in; [reflexivity|]. intros Hcol. now apply Hout, Hsch.
Qed.

(** ** More on the batch flow *)

Lemma put_length {A} (c : string) (v : A) (cols : list string) (r : list A) :
  length (put c v cols r) = length r.
Proof.
  revert r. induction cols as [|k cols IH]; intros [|x r]; simpl; auto.
Qed.

Lemma pick_put_ne {A} (k c : string) (v : A) (cols : list string) (r : list A) :
  k <> c -> pick k cols (put c v cols r) = pick k cols r.
Proof.
  intros Hne. revert r. induction cols as [|k' cols IH]; intros [|x r];
    simpl; try reflexivity.
  destruct (decide (k' = k)) as [->|_].
  - destruct (decide (k = c)); [contradiction|]. now rewrite IH.
  - apply IH.
Qed.

Lemma put_not_in {A} (c : string) (v : A) (cols : list string) (r : list A) :
  c ∉ cols -> put c v cols r = r.
Proof.
  revert r. induction cols as [|k cols IH]; intros [|x r] Hc; simpl; try reflexivity.
  apply not_elem_of_cons in Hc as [Hne Hc].
  destruct (decide (k = c)); [congruence|]. now rewrite IH.
Qed.

Lemma pick_put_same {A} (c : string) (v : A) (cols : list string) (r : list A) :
  NoDup cols -> c ∈ cols -> length r = length cols ->
  pick c cols (put c v cols r) = [v].
Proof.
  revert r. induction cols as [|k cols IH]; intros [|x r] Hnd Hc Hlen;
    simpl in *; try discriminate.
  - now apply elem_of_nil in Hc.
  - injection Hlen as Hlen. apply NoDup_cons in Hnd as [Hk Hnd].
    destruct (decide (k = c)) as [->|Hne].
    + now rewrite put_not_in, pick_not_in.
    + apply elem_of_cons in Hc as [->|Hc]; [congruence | now apply IH].
Qed.

(** A column assignment on a well-formed table: the table stays well
    formed, keeps its rows, has the label afterwards, holds the assigned
    value in every row and leaves the other columns as they were. *)
Lemma setitem_spec {A} (c : string) (vals : list A) (df : DataFrame A) :
  wf_df df -> length vals = df_len df ->
  exists df',
    setitem c vals df = Some df' /\ wf_df df' /\ df_len df' = df_len df /\
    (forall k, k ∈ columns df' <-> k ∈ columns df \/ k = c) /\
    forall i r v, rows df !! i = Some r -> vals !! i = Some v ->
      exists r', rows df' !! i = Some r' /\
                 pick c (columns df') r' = [v] /\
                 forall k, k <> c -> pick k (columns df') r' = pick k (columns df) r.
Proof.
  intros [Hnd Hrows] Hlen. unfold setitem.
  destruct (decide (length vals = df_len df)); [|contradiction].
  eexists. split; [reflexivity|].
  assert (Hrow : forall i r, rows df !! i = Some r -> length r = length (columns df)).
  { intros i r Hr. eapply (proj1 (Forall_forall _ _) Hrows), list_elem_of_lookup_2, Hr. }
  destruct (decide (c ∈ columns df)) as [Hin|Hout]; simpl.
  - split; [|split; [|split]].
    + split; [exact Hnd|]. simpl. apply Forall_forall. intros r' Hr'.
      apply list_elem_of_lookup_1 in Hr' as [i Hi].
      rewrite lookup_zip_with in Hi.
      destruct (vals !! i) as [v|]; simpl in Hi; [|discriminate].
      destruct (rows df !! i) as [r|] eqn:Er; simpl in Hi; [|discriminate].
      injection Hi as <-. rewrite put_length. eauto.
    + unfold df_len in *. simpl. rewrite length_zip_with. lia.
    + intros k. split; [now left|]. intros [H| ->]; assumption.
    + intros i r v Hr Hv. eexists. split.
      * rewrite lookup_zip_with, Hv, Hr. reflexivity.
      * split; [apply pick_put_same; eauto|]. intros k Hk. now apply pick_put_ne.
  - split; [|split; [|split]].
    + split.
      * simpl. apply NoDup_app. split; [exact Hnd|]. split.
        -- intros x Hx ->%list_elem_of_singleton. contradiction.
        -- apply NoDup_singleton.
      * simpl. apply Forall_forall. intros r' Hr'.
        apply list_elem_of_lookup_1 in Hr' as [i Hi].
        rewrite lookup_zip_with in Hi.
        destruct (vals !! i) as [v|]; simpl in Hi; [|discriminate].
        destruct (rows df !! i) as [r|] eqn:Er; simpl in Hi; [|discriminate].
        injection Hi as <-. rewrite !length_app. simpl. erewrite Hrow; eauto.
    + unfold df_len in *. simpl. rewrite length_zip_with. lia.
    + intros k. rewrite elem_of_app, list_elem_of_singleton. reflexivity.
    + intros i r v Hr Hv. eexists. split.
      * rewrite lookup_zip_with, Hv, Hr. reflexivity.
      * split.
        -- rewrite pick_app by eauto. rewrite pick_not_in by assumption. simpl.
           destruct (decide (c = c)); [reflexivity | congruence].
        -- intros k Hk. rewrite pick_app by eauto. simpl.
           destruct (decide (c = k)); [congruence | apply app_nil_r].
Qed.


(** ** The single-patient form *)

Lemma dict_set_keys (k : string) (v : float) (d : list (string * float)) :
  (dict_set k v d).*1 = if decide (k ∈ d.*1) then d.*1 else d.*1 ++ [k].
Proof.
  induction d as [|[k' v'] d IH]; [reflexivity|].
  cbn [dict_set]. destruct (decide (k' = k)) as [->|Hne];
    rewrite !fmap_cons; cbn [fst].
  - clear IH. case_decide as H; [reflexivity|]. destruct H. constructor.
  - rewrite IH. clear IH. destruct (decide (k ∈ d.*1)) as [Hin|Hout];
      case_decide as H; try reflexivity.
    + destruct H. now constructor.
    + apply elem_of_cons in H as [->|H]; [congruence | contradiction].
Qed.

Lemma dict_set_elem (k : string) (v : float) (d : list (string * float))
  (k' : string) (v' : float) :
  (k', v') ∈ dict_set k v d -> (k' = k /\ v' = v) \/ (k', v') ∈ d.
Proof.
  induction d as [|[k0 v0] d IH]; simpl.
  - intros [=]%list_elem_of_singleton. auto.
  - destruct (decide (k0 = k)) as [->|Hne].
    + intros [[=]|H]%elem_of_cons; [auto|]. right. now constructor.
    + intros [[=]|H]%elem_of_cons.
      * subst. right. constructor.
      * destruct (IH H) as [?|?]; [auto|]. right. now constructor.
Qed.

Lemma dict_set_has (k : string) (v : float) (d : list (string * float)) :
  k ∈ (dict_set k v d).*1.
Proof.
  rewrite dict_set_keys. destruct (decide (k ∈ d.*1)); [assumption|].
  apply elem_of_app. right. constructor.
Qed.

Lemma dict_set_keeps (k : string) (v : float) (d : list (string * float)) (k' : string) :
  k' ∈ d.*1 -> k' ∈ (dict_set k v d).*1.
Proof.
  intros H. rewrite dict_set_keys. destruct (decide (k ∈ d.*1)); [assumption|].
  apply elem_of_app. now left.
Qed.

Lemma dict_set_NoDup (k : string) (v : float) (d : list (string * float)) :
  NoDup d.*1 -> NoDup (dict_set k v d).*1.
Proof.
  intros H. rewrite dict_set_keys. destruct (decide (k ∈ d.*1)); [assumption|].
  apply NoDup_app. split; [assumption|]. split; [|apply NoDup_singleton].
  intros x Hx ->%list_elem_of_singleton. contradiction.
Qed.

Lemma form_common_step (l : list string) (d : list (string * float)) :
  (forall f, f ∈ l -> f ∈ FEATURE_ORDER) -> form_inv d ->
  form_inv (foldl (fun d f => match defaults !! f with
                              | Some x => dict_set f (number_input f x) d
                              | None => d
                              end) d l) /\
  (forall f, f ∈ d.*1 \/ (f ∈ l /\ is_Some (defaults !! f)) ->
             f ∈ (foldl (fun d f => match defaults !! f with
                                    | Some x => dict_set f (number_input f x) d
                                    | None => d
                                    end) d l).*1).
Proof.
  revert d. induction l as [|f l IH]; intros d Hl Hd; simpl.
  - split; [exact Hd|]. intros f [H|[H _]]; [exact H | now apply elem_of_nil in H].
  - assert (Hl' : forall g, g ∈ l -> g ∈ FEATURE_ORDER).
    { intros g Hg. apply Hl. now constructor. }
    destruct (defaults !! f) as [x|] eqn:Ef.
    + assert (Hd' : form_inv (dict_set f (number_input f x) d)).
      { destruct Hd as [Hnd Hval]. split; [now apply dict_set_NoDup|].
        intros k v [[-> ->]|H]%dict_set_elem; [|now apply Hval].
        split; [apply Hl; constructor|]. unfold entered. now rewrite Ef. }
      destruct (IH _ Hl' Hd') as [H1 H2]. split; [exact H1|].
      intros g [Hg|[Hg Hs]].
      * apply H2. left. now apply dict_set_keeps.
      * apply elem_of_cons in Hg as [->|Hg].
        -- apply H2. left. apply dict_set_has.
        -- apply H2. right. auto.
    + destruct (IH _ Hl' Hd) as [H1 H2]. split; [exact H1|].
      intros g [Hg|[Hg Hs]]; [apply H2; now left|].
      apply elem_of_cons in Hg as [->|Hg].
      * rewrite Ef in Hs. now destruct Hs.
      * apply H2. right. auto.
Qed.

Lemma form_others_step (l : list string) (d : list (string * float)) :
  (forall f, f ∈ l -> f ∈ FEATURE_ORDER) ->
  (forall f, f ∈ l -> is_Some (defaults !! f) -> f ∈ d.*1) ->
  form_inv d ->
  form_inv (foldl (fun d f => if decide (f ∈ d.*1) then d
                              else dict_set f (number_input f nan) d) d l) /\
  (forall f, f ∈ d.*1 \/ f ∈ l ->
             f ∈ (foldl (fun d f => if decide (f ∈ d.*1) then d
                                    else dict_set f (number_input f nan) d) d l).*1).
Proof.
  revert d. induction l as [|f l IH]; intros d Hl Hcov Hd; simpl.
  - split; [exact Hd|]. intros f [H|H]; [exact H | now apply elem_of_nil in H].
  - assert (Hl' : forall g, g ∈ l -> g ∈ FEATURE_ORDER).
    { intros g Hg. apply Hl. now constructor. }
    destruct (decide (f ∈ d.*1)) as [Hin|Hout].
    + destruct (IH d Hl') as [H1 H2]; [|exact Hd|].
      { intros g Hg. apply Hcov. now constructor. }
      split; [exact H1|]. intros g [Hg|Hg]; [apply H2; now left|].
      apply elem_of_cons in Hg as [->|Hg]; apply H2; auto.
    + destruct (IH (dict_set f (number_input f nan) d) Hl') as [H1 H2].
      { intros g Hg Hs. apply dict_set_keeps, Hcov; [now constructor | exact Hs]. }
      { destruct Hd as [Hnd Hval]. split; [now apply dict_set_NoDup|].
        intros k v [[-> ->]|H]%dict_set_elem; [|now apply Hval].
        split; [apply Hl; constructor|]. unfold entered.
        destruct (defaults !! f) as [x|] eqn:Ef; [|reflexivity].
        destruct Hout. apply Hcov; [constructor | eauto]. }
      split; [exact H1|]. intros g [Hg|Hg].
      * apply H2. left. now apply dict_set_keeps.
      * apply elem_of_cons in Hg as [->|Hg].
        -- apply H2. left. apply dict_set_has.
        -- apply H2. now right.
Qed.

Lemma user_vals_inv :
  form_inv user_vals /\ (forall f, f ∈ FEATURE_ORDER -> f ∈ user_vals.*1).
Proof.
  assert (H0 : form_inv []).
  { split; [constructor|]. intros k v H. now apply elem_of_nil in H. }
  destruct (form_common_step FEATURE_ORDER [] (fun f H => H) H0) as [H1 H2].
  fold form_common in H1, H2.
  destruct (form_others_step FEATURE_ORDER form_common (fun f H => H)) as [H3 H4];
    [|exact H1|].
  { intros f Hf Hs. apply H2. right. auto. }
  fold (form_others form_common) in H3, H4. fold user_vals in H3, H4.
  split; [exact H3|]. intros f Hf. apply H4. now right.
Qed.

(** The form's values read as a record. *)
Lemma user_vals_record (k : string) :
  to_dict (user_vals.*1) (user_vals.*2) !! k =
  if decide (k ∈ FEATURE_ORDER) then Some (entered k) else None.
Proof.
  destruct user_vals_inv as [[Hnd Hval] Hcov].
  unfold to_dict. rewrite zip_fst_snd.
  assert (Hnd' : NoDup (reverse user_vals).*1).
  { rewrite fmap_reverse. now rewrite reverse_Permutation. }
  destruct (decide (k ∈ FEATURE_ORDER)) as [Hin|Hout].
  - apply Hcov, list_elem_of_fmap in Hin as ([k' v] & -> & Hkv). simpl.
    apply elem_of_list_to_map; [exact Hnd'|].
    destruct (Hval _ _ Hkv) as [_ <-]. now apply elem_of_reverse.
  - apply not_elem_of_list_to_map_1.
    intros ([k' v] & -> & Hkv)%list_elem_of_fmap.
    rewrite elem_of_reverse in Hkv. exact (Hout (proj1 (Hval k' v Hkv))).
Qed.

Lemma wf_form_row : wf_df form_row.
Proof.
  destruct user_vals_inv as [[Hnd _] _]. split; [exact Hnd|]. simpl.
  apply Forall_cons. split; [|constructor]. now rewrite !length_fmap.
Qed.

Lemma user_vals_keys (f : string) : f ∈ user_vals.*1 <-> f ∈ FEATURE_ORDER.
Proof.
  destruct user_vals_inv as [[Hnd Hval] Hcov]. split; [|apply Hcov].
  intros ([k v] & -> & Hkv)%list_elem_of_fmap. now apply (Hval k v).
Qed.

(** Aligning the form's table. *)
Lemma ensure_feature_df_form_row :
  ensure_feature_df form_row =
  (form_row, Some (one_row FEATURE_ORDER (map entered FEATURE_ORDER))).
Proof.
  rewrite (ensure_feature_df_spec form_row wf_form_row).
  destruct user_vals_inv as [_ Hcov]. f_equal.
  - apply fill_missing_present. exact Hcov.
  - simpl. unfold one_row. do 3 f_equal.
    apply map_ext_Forall, Forall_forall. intros c Hc.
    unfold dict_get. rewrite user_vals_record.
    destruct (decide (c ∈ FEATURE_ORDER)); [reflexivity | contradiction].
Qed.

(** The single-record computation on the form's table. *)
Lemma predict_one_form :
  predict_one form_row =
  match predict_proba (one_row FEATURE_ORDER (map entered FEATURE_ORDER)) !! 0%nat with
  | Some p =>
      Some (one_row FEATURE_ORDER (map entered FEATURE_ORDER), p,
            map_action p (to_dict (user_vals.*1) (user_vals.*2)) THRESHOLD)
  | None => None
  end.
Proof.
  unfold predict_one. rewrite ensure_feature_df_form_row. cbn [mbind option_bind].
  destruct (predict_proba _ !! 0%nat) as [p|]; reflexivity.
Qed.

(** The properties of the form are stated for a schema of distinct
    feature names: Streamlit refuses to build two identical widgets, so
    the page does not come up otherwise. *)

(** X9: the form collects exactly one value per schema feature: the keys
    of [user_vals] are the schema's features, each once (in an order of
    their own), and each holds the number of that feature's own widget. *)
Theorem user_vals_cover_schema :
  NoDup FEATURE_ORDER ->
  user_vals.*1 ≡ₚ FEATURE_ORDER /\
  (forall f v, (f, v) ∈ user_vals -> v = entered f).
Proof.
  intros Hnd. destruct user_vals_inv as [[Hk Hval] _]. split.
  - apply NoDup_Permutation; [exact Hk | exact Hnd | apply user_vals_keys].
  - intros f v H. now apply (Hval f v).
Qed.

(** X10: aligning the form's one-row table adds no column to it, and the
    feature row handed to the classifier holds, in schema order, the
    number entered for each feature. *)
Theorem ensure_feature_df_form :
  NoDup FEATURE_ORDER ->
  ensure_feature_df form_row =
  (form_row, Some (one_row FEATURE_ORDER (map entered FEATURE_ORDER))).
Proof. intros _. apply ensure_feature_df_form_row. Qed.

(** X11: pressing "Predict" on the form never fails, whatever the
    numbers entered: the page shows the probability of the entered
    feature row, the threshold, and the action [map_action] gives for the
    record of the entered values, then the explanation's output. *)
Theorem on_predict_form :
  NoDup FEATURE_ORDER ->
  exists p d,
    predict_proba (one_row FEATURE_ORDER (map entered FEATURE_ORDER)) !! 0%nat = Some p /\
    (forall k, d !! k = if decide (k ∈ FEATURE_ORDER) then Some (entered k) else None) /\
    on_predict form_row =
    Some (show_result p (map_action p d THRESHOLD) ++
          explain (one_row FEATURE_ORDER (map entered FEATURE_ORDER))).
Proof.
  intros _.
  destruct (predict_proba (one_row FEATURE_ORDER (map entered FEATURE_ORDER)) !! 0%nat)
    as [p|] eqn:Ep.
  2: { apply lookup_ge_None_1 in Ep. rewrite predict_proba_length in Ep.
       unfold df_len in Ep. simpl in Ep. lia. }
  exists p, (to_dict (user_vals.*1) (user_vals.*2)).
  split; [reflexivity|]. split; [apply user_vals_record|].
  unfold on_predict. rewrite predict_one_form, Ep. reflexivity.
Qed.

(** X12: when the form is submitted as it comes up (every widget still
    holds its initial value), the recommendation is never "Evaluate in
    24h": the preset temperature 37.0 and lactate 1.5 pass the guardrails,
    and a feature outside the schema counts as missing. *)
Theorem untouched_form_never_evaluate :
  NoDup FEATURE_ORDER ->
  (forall f x, number_input f x = x) ->
  forall X p a, predict_one form_row = Some (X, p, a) ->
    a = if lt p THRESHOLD then STOP else CONTINUE.
Proof.
  intros _ Hid X p a. rewrite predict_one_form.
  destruct (predict_proba _ !! 0%nat) as [p'|]; [|discriminate].
  intros [= _ -> <-].
  destruct (lt p THRESHOLD) eqn:Hp; [|now apply map_action_not_lt].
  rewrite (map_action_lt_tests _ _ _ Hp). unfold dict_get.
  rewrite !user_vals_record. unfold entered. rewrite !Hid.
  destruct (decide ("median_temp" ∈ FEATURE_ORDER));
    destruct (decide ("median_lactate" ∈ FEATURE_ORDER)); reflexivity.
Qed.

(** ** Uploaded tables: records and alignment on cells of any kind *)

Lemma row_dict_cons {A} (k : string) (v : A) (cols : list string) (r : list A) :
  row_dict (k :: cols) (v :: r) = row_dict cols r ∪ {[ k := v ]}.
Proof.
  unfold row_dict. simpl. rewrite reverse_cons, list_to_map_app. simpl.
  now rewrite insert_empty.
Qed.

Lemma row_dict_not_in {A} (c : string) (cols : list string) (r : list A) :
  c ∉ cols -> row_dict cols r !! c = None.
Proof.
  intros Hc. unfold row_dict. apply not_elem_of_list_to_map_1.
  intros ((k & v) & -> & Hin)%list_elem_of_fmap.
  rewrite elem_of_reverse in Hin. apply elem_of_zip_l in Hin. contradiction.
Qed.

Lemma pick_row_dict {A} (c : string) (cols : list string) (r : list A) :
  NoDup cols -> length r = length cols ->
  pick c cols r = option_list (row_dict cols r !! c).
Proof.
  revert r. induction cols as [|k cols IH]; intros [|v r] Hnd Hlen;
    simpl in *; try discriminate; [reflexivity|].
  injection Hlen as Hlen. apply NoDup_cons in Hnd as [Hk Hnd].
  rewrite row_dict_cons. destruct (decide (k = c)) as [->|Hne].
  - rewrite pick_not_in by assumption.
    rewrite lookup_union_r by now apply row_dict_not_in.
    now rewrite lookup_singleton_eq.
  - rewrite lookup_union_l by now apply lookup_singleton_ne.
    now apply IH.
Qed.

Lemma row_dict_in {A} (c : string) (cols : list string) (r : list A) :
  length r = length cols -> c ∈ cols -> is_Some (row_dict cols r !! c).
Proof.
  revert r. induction cols as [|k cols IH]; intros [|v r] Hlen Hc;
    simpl in *; try discriminate.
  - now apply elem_of_nil in Hc.
  - injection Hlen as Hlen. rewrite row_dict_cons, lookup_union.
    destruct (decide (k = c)) as [->|Hne].
    + rewrite lookup_singleton_eq. destruct (row_dict cols r !! c); eauto.
    + apply elem_of_cons in Hc as [->|Hc]; [congruence|].
      destruct (IH r Hlen Hc) as [x ->]. rewrite lookup_singleton_ne by assumption.
      eauto.
Qed.

Lemma fill_with_eq {A} (na : A) (feats : list string) (df : DataFrame A) :
  fill_with na feats df =
  mkDF (columns df ++ missing feats (columns df))
       (map (fun r => r ++ replicate (length (missing feats (columns df))) na)
            (rows df)).
Proof.
  revert df. induction feats as [|c feats IH]; intros [cols rws]; simpl.
  - rewrite app_nil_r. f_equal. rewrite <- (map_id rws) at 1.
    apply map_ext. intros r. now rewrite app_nil_r.
  - unfold fill_with in *. simpl. destruct (decide (c ∈ cols)) as [Hc|Hc].
    + apply (IH (mkDF cols rws)).
    + unfold setitem_scalar. simpl. destruct (decide (c ∈ cols)); [contradiction|].
      rewrite IH. simpl. rewrite <- app_assoc. simpl. f_equal.
      rewrite map_map. apply map_ext. intros r. now rewrite <- app_assoc.
Qed.

Lemma pick_filled_with {A} (na : A) (c : string) (cols extra : list string) (r : list A) :
  NoDup (cols ++ extra) -> length r = length cols -> c ∈ cols ++ extra ->
  pick c (cols ++ extra) (r ++ replicate (length extra) na) =
  [get_or (row_dict cols r) c na].
Proof.
  intros (Hnd & Hdisj & Hnd')%NoDup_app Hlen Hc.
  rewrite pick_app by assumption. unfold get_or.
  destruct (decide (c ∈ cols)) as [Hin|Hout].
  - rewrite (pick_not_in c extra) by now apply Hdisj.
    rewrite app_nil_r, pick_row_dict by assumption.
    destruct (row_dict_in c cols r Hlen Hin) as [v ->]. reflexivity.
  - rewrite pick_not_in, row_dict_not_in by assumption.
    apply elem_of_app in Hc as [Hc|Hc]; [contradiction|].
    now rewrite pick_replicate.
Qed.

Lemma get_or_filled {A} (na : A) (k : string) (cols extra : list string) (r : list A) :
  NoDup (cols ++ extra) -> length r = length cols ->
  get_or (row_dict (cols ++ extra) (r ++ replicate (length extra) na)) k na =
  get_or (row_dict cols r) k na.
Proof.
  intros Hnd Hlen.
  destruct (decide (k ∈ cols ++ extra)) as [Hin|Hout].
  - pose proof (pick_filled_with na k cols extra r Hnd Hlen Hin) as E.
    rewrite pick_row_dict in E; [|assumption|].
    + unfold get_or at 1.
      destruct (row_dict (cols ++ extra) _ !! k); simpl in E; congruence.
    + rewrite !length_app, length_replicate. congruence.
  - unfold get_or. rewrite !row_dict_not_in; [reflexivity| |assumption].
    intros Hk. apply Hout, elem_of_app. now left.
Qed.

(** [ensure_feature_df] on a well-formed uploaded table. *)
Lemma ensure_feature_df_obj_spec (df : DataFrame cell) :
  wf_df df ->
  ensure_feature_df_obj df =
  (fill_with (Num nan) FEATURE_ORDER df,
   Some (mkDF FEATURE_ORDER
           (map (fun r => map (fun c => get_or (row_dict (columns df) r) c (Num nan))
                              FEATURE_ORDER)
                (rows df)))).
Proof.
  intros [Hnd Hrows]. unfold ensure_feature_df_obj. cbv zeta. f_equal.
  rewrite fill_with_eq. unfold getitem. simpl.
  destruct (missing_spec FEATURE_ORDER (columns df) Hnd) as [Hnd' Hall].
  set (extra := missing FEATURE_ORDER (columns df)) in *.
  destruct (decide _) as [_|Hno].
  2: { destruct Hno. apply Forall_forall. exact Hall. }
  f_equal. f_equal.
  - rewrite (flat_map_ext_elem _ (fun c => [c])).
    + rewrite flat_map_singleton. apply map_id.
    + intros c Hc. apply pick_self; auto.
  - rewrite map_map. apply map_ext_Forall.
    eapply Forall_impl; [exact Hrows|]. intros r Hlen. simpl in Hlen.
    rewrite <- flat_map_singleton. apply flat_map_ext_elem.
    intros c Hc. apply pick_filled_with; auto.
Qed.

(** ** The decision rule on records read from a file *)

Lemma numbers_lookup (d : gmap string cell) (k : string) :
  numbers d !! k = d !! k ≫= cell_number.
Proof. unfold numbers. apply lookup_omap. Qed.

(** Where a record holds no text, its entry is the number of its numeric
    part, NaN when there is none. *)
Lemma get_or_numeric (d : gmap string cell) (k : string) :
  numeric_at d k -> get_or d k (Num nan) = Num (dict_get (numbers d) k nan).
Proof.
  intros H. unfold get_or, dict_get. rewrite numbers_lookup.
  destruct (d !! k) as [[x|s]|] eqn:E; simpl; try reflexivity.
  now destruct (H s).
Qed.

(** On a record whose guardrail entries are numbers or missing, the rule
    raises nothing and answers as it does on the record's numbers. *)
Lemma map_action_obj_numeric (p thr : float) (d : gmap string cell) :
  numeric_at d "median_temp" -> numeric_at d "median_lactate" ->
  map_action_obj p d thr = Some (map_action p (numbers d) thr).
Proof.
  intros Ht Hl. unfold map_action_obj, map_action.
  destruct (lt p thr); [|reflexivity]. cbv zeta.
  rewrite (get_or_numeric d _ Ht), (get_or_numeric d _ Hl). simpl.
  destruct (negb (isnan (dict_get (numbers d) "median_temp" nan)));
    destruct (negb (isnan (dict_get (numbers d) "median_lactate" nan))); reflexivity.
Qed.

Lemma map_action_obj_ext (p thr : float) (d1 d2 : gmap string cell) :
  (forall k, get_or d1 k (Num nan) = get_or d2 k (Num nan)) ->
  map_action_obj p d1 thr = map_action_obj p d2 thr.
Proof. intros H. unfold map_action_obj. now rewrite !H. Qed.

(** A text guardrail entry makes the rule raise [TypeError] as soon as the
    probability is below the threshold. *)
Lemma map_action_obj_text (p thr : float) (d : gmap string cell) (s : string) :
  lt p thr = true ->
  d !! "median_temp" = Some (Str s) \/
  (numeric_at d "median_temp" /\ d !! "median_lactate" = Some (Str s)) ->
  map_action_obj p d thr = None.
Proof.
  intros Hp H. unfold map_action_obj. rewrite Hp. cbv zeta.
  destruct H as [H|[Ht H]].
  - unfold get_or. rewrite H. reflexivity.
  - rewrite (get_or_numeric d _ Ht). unfold get_or. rewrite H. simpl.
    destruct (negb _); reflexivity.
Qed.

(** ** The batch flow on uploaded tables *)

(** What is assumed of the classifier on an uploaded table: on an all-
    numeric feature table it answers as on the same numbers. *)
Hypothesis predict_proba_obj_numeric :
  forall X, predict_proba_obj (as_object X) = Some (predict_proba X).

Lemma aligned_row_numeric (cols : list string) (r : list cell) :
  (forall c, c ∈ FEATURE_ORDER \/ c = "median_temp" \/ c = "median_lactate" ->
             numeric_at (row_dict cols r) c) ->
  map (fun c => get_or (row_dict cols r) c (Num nan)) FEATURE_ORDER =
  map Num (features_obj cols r).
Proof.
  intros H. unfold features_obj. rewrite map_map.
  apply map_ext_Forall, Forall_forall. intros c Hc.
  apply get_or_numeric, H. now left.
Qed.

(** The single-record computation on a row of an uploaded table whose
    inputs are numbers. *)
Lemma predict_one_obj_spec (cols : list string) (r : list cell) :
  wf_df (one_row cols r) ->
  (forall c, c ∈ FEATURE_ORDER \/ c = "median_temp" \/ c = "median_lactate" ->
             numeric_at (row_dict cols r) c) ->
  exists p,
    predict_proba (one_row FEATURE_ORDER (features_obj cols r)) !! 0%nat = Some p /\
    predict_one_obj (one_row cols r) =
    Some (as_object (one_row FEATURE_ORDER (features_obj cols r)), p,
          map_action p (numbers (row_dict cols r)) THRESHOLD).
Proof.
  intros Hwf Hnum. unfold predict_one_obj.
  rewrite (ensure_feature_df_obj_spec _ Hwf). simpl.
  rewrite (aligned_row_numeric cols r Hnum).
  change (mkDF FEATURE_ORDER [map Num (features_obj cols r)])
    with (as_object (one_row FEATURE_ORDER (features_obj cols r))).
  rewrite predict_proba_obj_numeric. cbn [mbind option_bind].
  destruct (predict_proba (one_row FEATURE_ORDER (features_obj cols r)) !! 0%nat)
    as [p|] eqn:Ep.
  2: { apply lookup_ge_None_1 in Ep. rewrite predict_proba_length in Ep.
       unfold df_len in Ep. simpl in Ep. lia. }
  exists p. split; [reflexivity|]. cbn [mbind option_bind].
  rewrite fill_with_eq. unfold iloc_row_dict. simpl.
  destruct Hwf as [Hnd Hrows]. simpl in Hnd, Hrows.
  apply Forall_cons in Hrows as [Hlen _].
  rewrite (map_action_obj_ext p THRESHOLD _ (row_dict cols r)).
  2: { intros k. apply get_or_filled; [|assumption]. now apply missing_spec. }
  rewrite map_action_obj_numeric by (apply Hnum; auto). reflexivity.
Qed.

(** The batch flow on a well-formed table with numeric inputs, up to the
    two assignments. *)
Lemma batch_unfold (raw : DataFrame cell) :
  wf_df raw -> numeric_inputs raw ->
  exists probs,
    length probs = df_len raw /\
    (forall i r, rows raw !! i = Some r ->
       exists p, probs !! i = Some p /\
         predict_one_obj (one_row (columns raw) r) =
         Some (as_object (one_row FEATURE_ORDER (features_obj (columns raw) r)), p,
               map_action p (numbers (row_dict (columns raw) r)) THRESHOLD)) /\
    batch raw =
    setitem "prob_infection" (map (fun p => Num (np_round3 p)) probs) raw
    ≫= setitem "recommendation"
         (map Str (zip_with
                     (fun p r => map_action p (numbers (row_dict (columns raw) r))
                                            THRESHOLD)
                     probs (rows raw))).
Proof.
  intros Hwf Hnum. unfold batch.
  rewrite (ensure_feature_df_obj_spec raw Hwf). cbn [mbind option_bind].
  set (Xf := mkDF FEATURE_ORDER (map (features_obj (columns raw)) (rows raw))).
  assert (HX : mkDF FEATURE_ORDER
                 (map (fun r => map (fun c => get_or (row_dict (columns raw) r) c (Num nan))
                                    FEATURE_ORDER) (rows raw)) = as_object Xf).
  { unfold as_object, Xf. simpl. f_equal. rewrite map_map.
    apply map_ext_Forall. eapply Forall_impl; [exact Hnum|].
    intros r Hr. now apply aligned_row_numeric. }
  rewrite HX, predict_proba_obj_numeric. cbn [mbind option_bind].
  assert (HlenX : df_len (as_object Xf) = df_len raw).
  { unfold df_len. simpl. now rewrite !length_map. }
  pose proof (predict_proba_length Xf) as Hlen.
  assert (HlenF : df_len Xf = df_len raw).
  { unfold df_len. simpl. apply length_map. }
  rewrite HlenF in Hlen. rewrite HlenX.
  exists (predict_proba Xf). split; [exact Hlen|].
  assert (Hrow : forall i r, rows raw !! i = Some r ->
            forall c, c ∈ FEATURE_ORDER \/ c = "median_temp" \/ c = "median_lactate" ->
                      numeric_at (row_dict (columns raw) r) c).
  { intros i r Hr. eapply (proj1 (Forall_forall _ _) Hnum), list_elem_of_lookup_2, Hr. }
  split.
  - intros i r Hri.
    destruct (predict_one_obj_spec (columns raw) r) as (p & Hp1 & Hone).
    { destruct Hwf as [Hnd Hrows]. split; [exact Hnd|]. simpl.
      apply Forall_cons. split; [|constructor].
      eapply (proj1 (Forall_forall _ _) Hrows), list_elem_of_lookup_2, Hri. }
    { exact (Hrow i r Hri). }
    exists p. split; [|exact Hone].
    rewrite (predict_proba_rowwise Xf i (features_obj (columns raw) r)).
    + exact Hp1.
    + unfold Xf. simpl. rewrite lookup_map, Hri. reflexivity.
  - assert (Hact : batch_actions (predict_proba Xf) raw (df_len raw) =
             Some (zip_with
                     (fun p r => map_action p (numbers (row_dict (columns raw) r))
                                            THRESHOLD)
                     (predict_proba Xf) (rows raw))).
    { unfold batch_actions. apply mapM_Some. apply Forall2_same_length_lookup_2.
      - rewrite length_seq, length_zip_with. unfold df_len in *. lia.
      - intros i j a Hj Ha. apply lookup_seq in Hj as [-> _]. simpl.
        rewrite lookup_zip_with in Ha. unfold iloc_row_dict.
        destruct (predict_proba Xf !! i) as [p|]; simpl in *; [|discriminate].
        destruct (rows raw !! i) as [r|] eqn:Er; simpl in *; [|discriminate].
        injection Ha as <-.
        apply map_action_obj_numeric; apply (Hrow i r Er); auto. }
    rewrite Hact. reflexivity.
Qed.

(** C8 (amended): for every uploaded table, text columns included, that
    has no column named "prob_infection" or "recommendation" and whose
    schema columns and guardrail columns hold no text, the batch flow
    returns the table with its rows and columns kept in order and two
    columns added on the right; in every row they hold the rounded
    probability and the action that the single-record computation yields
    for that row taken alone. *)
Theorem batch_matches_single (raw : DataFrame cell) :
  wf_df raw -> numeric_inputs raw ->
  "prob_infection" ∉ columns raw ->
  "recommendation" ∉ columns raw ->
  exists out,
    batch raw = Some out /\
    columns out = columns raw ++ ["prob_infection"; "recommendation"] /\
    Forall2 (fun r o => exists X p a,
               predict_one_obj (one_row (columns raw) r) = Some (X, p, a) /\
               o = r ++ [Num (np_round3 p); Str a])
            (rows raw) (rows out).
Proof.
  intros Hwf Hnum Hp Hr.
  destruct (batch_unfold raw Hwf Hnum) as (probs & Hlen & Hprobs & ->).
  set (actions := zip_with _ probs (rows raw)).
  assert (Hla : length actions = df_len raw).
  { unfold actions. rewrite length_zip_with. unfold df_len in *. lia. }
  rewrite (setitem_new "prob_infection").
  2: exact Hp.
  2: { now rewrite length_map. }
  cbn [mbind option_bind]. rewrite (setitem_new "recommendation").
  2: { simpl. intros [H|H%list_elem_of_singleton]%elem_of_app;
         [contradiction | discriminate]. }
  2: { rewrite length_map. unfold df_len in *. simpl.
       rewrite length_zip_with, !length_map. lia. }
  eexists. split; [reflexivity|]. simpl. split; [now rewrite <- app_assoc|].
  apply Forall2_same_length_lookup_2.
  { rewrite !length_zip_with, !length_map. unfold df_len in *. lia. }
  intros i r o Hri Ho.
  destruct (Hprobs i r Hri) as (p & Hpi & Hone).
  eexists _, p, _. split; [exact Hone|].
  rewrite !lookup_zip_with, !lookup_map in Ho. unfold actions in Ho.
  rewrite lookup_zip_with, Hpi, Hri in Ho. simpl in Ho.
  injection Ho as <-. now rewrite <- app_assoc.
Qed.

(** X8: on every well-formed uploaded table whose schema and guardrail
    columns hold no text, whatever its other columns and its column
    names, the batch flow succeeds and returns a well-formed table with
    the same rows in order; its labels are the uploaded ones together
    with "prob_infection" and "recommendation"; in each row these two hold
    the rounded probability and the action of the single-record
    computation on that row, and every other column holds the uploaded
    value.  An uploaded column that bears one of the two names is thus
    replaced. *)
Theorem batch_any_table (raw : DataFrame cell) :
  wf_df raw -> numeric_inputs raw ->
  exists out,
    batch raw = Some out /\ wf_df out /\ df_len out = df_len raw /\
    (forall k, k ∈ columns out <->
               k ∈ columns raw \/ k = "prob_infection" \/ k = "recommendation") /\
    forall i r, rows raw !! i = Some r ->
      exists o X p a,
        rows out !! i = Some o /\
        predict_one_obj (one_row (columns raw) r) = Some (X, p, a) /\
        pick "prob_infection" (columns out) o = [Num (np_round3 p)] /\
        pick "recommendation" (columns out) o = [Str a] /\
        forall k, k <> "prob_infection" -> k <> "recommendation" ->
                  pick k (columns out) o = pick k (columns raw) r.
Proof.
  intros Hwf Hnum.
  destruct (batch_unfold raw Hwf Hnum) as (probs & Hlen & Hprobs & ->).
  set (actions := zip_with _ probs (rows raw)).
  destruct (setitem_spec "prob_infection" (map (fun p => Num (np_round3 p)) probs)
              raw Hwf) as (out1 & -> & Hwf1 & Hlen1 & Hcols1 & Hrows1).
  { now rewrite length_map. }
  cbn [mbind option_bind].
  destruct (setitem_spec "recommendation" (map Str actions) out1 Hwf1)
    as (out & -> & Hwf2 & Hlen2 & Hcols2 & Hrows2).
  { rewrite length_map, Hlen1. unfold actions.
    rewrite length_zip_with. unfold df_len in *. lia. }
  exists out. split; [reflexivity|]. split; [exact Hwf2|].
  split; [congruence|]. split.
  { intros k. rewrite Hcols2, Hcols1.
    split; [intros [[?|?]|?]; auto | intros [?|[?|?]]; auto]. }
  intros i r Hri. destruct (Hprobs i r Hri) as (p & Hpi & Hone).
  destruct (Hrows1 i r (Num (np_round3 p))) as (r1 & Hr1 & Hpick1 & Hrest1).
  { exact Hri. }
  { rewrite lookup_map, Hpi. reflexivity. }
  destruct (Hrows2 i r1
              (Str (map_action p (numbers (row_dict (columns raw) r)) THRESHOLD)))
    as (o & Ho & Hpick2 & Hrest2); [exact Hr1| |].
  { rewrite lookup_map. unfold actions. rewrite lookup_zip_with, Hpi, Hri. reflexivity. }
  eexists o, _, p, _.
  split; [exact Ho|]. split; [exact Hone|]. split; [|split; [exact Hpick2|]].
  - rewrite Hrest2 by discriminate. exact Hpick1.
  - intros k Hk1 Hk2. now rewrite (Hrest2 k Hk2), (Hrest1 k Hk1).
Qed.

(** On a table of numbers the computation on uploaded rows is the
    single-record computation of the form. *)
Lemma row_dict_Num (cols : list string) (r : list float) (k : string) :
  row_dict cols (map Num r) !! k = option_map Num (to_dict cols r !! k).
Proof.
  revert r. induction cols as [|k0 cols IH]; intros [|v r];
    try (unfold row_dict, to_dict; simpl; now rewrite !lookup_empty).
  change (map Num (v :: r)) with (Num v :: map Num r).
  rewrite row_dict_cons, to_dict_cons, !lookup_union, IH.
  destruct (to_dict cols r !! k) as [x|]; simpl.
  - destruct (decide (k0 = k)) as [->|Hne].
    + now rewrite !lookup_singleton_eq.
    + now rewrite !lookup_singleton_ne by assumption.
  - destruct (decide (k0 = k)) as [->|Hne].
    + now rewrite !lookup_singleton_eq.
    + now rewrite !lookup_singleton_ne by assumption.
Qed.

Lemma numbers_row_dict_Num (cols : list string) (r : list float) :
  numbers (row_dict cols (map Num r)) = to_dict cols r.
Proof.
  apply map_eq. intros k. rewrite numbers_lookup, row_dict_Num.
  destruct (to_dict cols r !! k); reflexivity.
Qed.

Lemma predict_one_obj_numbers (cols : list string) (r : list float) :
  wf_df (one_row cols r) ->
  predict_one_obj (as_object (one_row cols r)) =
  option_map (fun '(X, p, a) => (as_object X, p, a)) (predict_one (one_row cols r)).
Proof.
  intros Hwf.
  destruct (predict_one_spec cols r Hwf) as (p & Hp & ->).
  change (as_object (one_row cols r)) with (one_row cols (map Num r)).
  destruct (predict_one_obj_spec cols (map Num r)) as (p' & Hp' & ->).
  - destruct Hwf as [Hnd Hrows]. split; [exact Hnd|]. simpl in *.
    apply Forall_cons in Hrows as [Hlen _].
    apply Forall_cons. split; [|constructor]. now rewrite length_map.
  - intros c _ s Hs. rewrite row_dict_Num in Hs.
    destruct (to_dict cols r !! c); discriminate.
  - unfold features_obj in *. rewrite numbers_row_dict_Num in *.
    fold (features cols r) in *. rewrite Hp in Hp'. injection Hp' as <-.
    reflexivity.
Qed.

(** ** The explanation step as page code *)

(** When the explanation's exceptions are all instances of [Exception],
    the run shows what [on_predict] lists, and ends normally. *)
Lemma on_predict_page_shown (row : DataFrame float) :
  (forall X, attribution X =
             match shap_top5 X with inl e => inl (Exc e) | inr c => inr c end) ->
  on_predict_page row = option_map (fun ws => mkPage ws None) (on_predict row).
Proof.
  intros H. unfold on_predict_page, on_predict.
  destruct (predict_one row) as [[[X p] a]|]; [|reflexivity]. simpl.
  unfold render_prediction, explain_body, explain. rewrite H.
  destruct (shap_top5 X) as [e|c]; reflexivity.
Qed.

(** C9: in the single-record flow a failure of the explanation step,
    whatever [Exception] it raises, does not abort the run: the page
    shows the calibrated probability, the threshold and the
    recommendation, then an informational message carrying the error, and
    no exception is left in flight.  Whatever the step does, these three
    are what the page shows first. *)
Theorem on_predict_survives_explanation (row : DataFrame float) :
  wf_df row -> df_len row = 1%nat ->
  exists X p a,
    predict_one row = Some (X, p, a) /\
    (forall msg, attribution X = inl (Exc msg) ->
       on_predict_page row =
       Some (mkPage
               [Metric "Probabilitas infeksi (terkalibrasi)" (fmt3 p);
                Metric "Ambang aksi (sens tinggi)" (fmt3 THRESHOLD);
                Success ("Rekomendasi: **" +:+ a +:+ "**");
                Info ("SHAP tidak ditampilkan (" +:+ msg +:+ ").")]
               None)) /\
    exists pg rest,
      on_predict_page row = Some pg /\
      shown pg =
      [Metric "Probabilitas infeksi (terkalibrasi)" (fmt3 p);
       Metric "Ambang aksi (sens tinggi)" (fmt3 THRESHOLD);
       Success ("Rekomendasi: **" +:+ a +:+ "**")] ++ rest.
Proof.
  intros Hwf Hone. destruct row as [cols [|r [|r' rws]]]; try discriminate.
  change (mkDF cols [r]) with (one_row cols r) in *.
  destruct (predict_one_spec cols r Hwf) as (p & _ & E).
  eexists _, p, _. split; [exact E|].
  unfold on_predict_page. rewrite E. cbn [mbind option_bind]. split.
  - intros msg Hmsg. unfold render_prediction, explain_body. rewrite Hmsg.
    reflexivity.
  - unfold render_prediction, explain_body.
    destruct (attribution _) as [[msg|msg]|c];
      eexists _, _; (split; [reflexivity|]); reflexivity.
Qed.

End App.

(** ** The theorems at work on concrete data *)

Import Demo.

(** The spec's end-to-end scenarios. *)
Example scenario_stop :
  map_action 0.3 (<["median_temp" := 37.0%float]> {["median_lactate" := 1.0%float]}) 0.5
  = STOP.
Proof. vm_compute. reflexivity. Qed.

Example scenario_continue :
  map_action 0.6 (<["median_temp" := 36.0%float]> {["median_lactate" := 0.5%float]}) 0.5
  = CONTINUE.
Proof. vm_compute. reflexivity. Qed.

Example scenario_evaluate :
  map_action 0.4 (<["median_temp" := 38.5%float]> {["median_lactate" := 1.0%float]}) 0.5
  = EVALUATE.
Proof. vm_compute. reflexivity. Qed.

(** A NaN probability is not below any threshold. *)
Example scenario_nan_probability : map_action PyFloat.nan ∅ 0.5 = CONTINUE.
Proof. vm_compute. reflexivity. Qed.

Lemma map_action_continue_witness :
  PyFloat.ge 0.5 0.5 = true /\
  map_action 0.5 (<["median_temp" := 36.5%float]> {["median_lactate" := 1.0%float]}) 0.5
  = CONTINUE.
Proof.
  split; [reflexivity|]. apply map_action_continue. reflexivity.
Defined.

Lemma map_action_no_guardrail_witness :
  map_action 0.3 {["median_temp" := PyFloat.nan]} 0.5 = STOP.
Proof.
  apply map_action_no_guardrail.
  - reflexivity.
  - right. exists PyFloat.nan. split; reflexivity.
  - left. reflexivity.
Defined.

Lemma map_action_boundary_fails_witness :
  map_action 0.3 (<["median_temp" := 38.0%float]> {["median_lactate" := 1.0%float]}) 0.5
  = EVALUATE /\
  map_action 0.3 (<["median_temp" := 37.0%float]> {["median_lactate" := 2.0%float]}) 0.5
  = EVALUATE.
Proof.
  split; apply map_action_boundary_fails; try reflexivity.
  - left. reflexivity.
  - right. reflexivity.
Defined.

Lemma map_action_stable_witness :
  map_action 0.3 (<["median_temp" := 37.9%float]> {["median_lactate" := 1.9%float]}) 0.5
  = STOP.
Proof.
  apply map_action_stable.
  - reflexivity.
  - intros v Hv _. vm_compute in Hv. injection Hv as <-. reflexivity.
  - intros v Hv _. vm_compute in Hv. injection Hv as <-. reflexivity.
Defined.

Lemma map_action_reads_two_entries_witness :
  let r1 := <["median_temp" := 37.0%float]> {["median_wbc" := 11.0%float]} in
  let r2 := <["median_temp" := 37.0%float]> {["median_lactate" := PyFloat.nan]} in
  map_action 0.3 r1 0.5 = map_action 0.3 r2 0.5 /\
  (map_action 0.3 r1 0.5 = STOP \/ map_action 0.3 r1 0.5 = EVALUATE \/
   map_action 0.3 r1 0.5 = CONTINUE).
Proof.
  intros r1 r2. apply (map_action_reads_two_entries 0.3 0.5 r1 r2).
  - left. reflexivity.
  - right. split.
    + left. reflexivity.
    + right. exists PyFloat.nan. split; reflexivity.
Defined.

(** The demonstration tables are well formed. *)
Lemma wf_raw : wf_df raw.
Proof.
  split; [apply (bool_decide_unpack _); vm_compute; exact I | repeat constructor].
Defined.

Lemma wf_aligned : wf_df aligned.
Proof.
  split; [apply (bool_decide_unpack _); vm_compute; exact I | repeat constructor].
Defined.

Lemma wf_unrelated : wf_df unrelated.
Proof.
  split; [apply (bool_decide_unpack _); vm_compute; exact I | repeat constructor].
Defined.

(** The stand-in classifier scores row by row. *)
Lemma predict_length (X : DataFrame float) : length (predict X) = df_len X.
Proof. apply length_map. Defined.

Lemma predict_rowwise (X : DataFrame float) (i : nat) (r : list float) :
  rows X !! i = Some r -> predict X !! i = predict (one_row (columns X) r) !! 0%nat.
Proof.
  intros H. unfold predict. rewrite lookup_map, H. reflexivity.
Defined.

Lemma ensure_feature_df_aligns_witness :
  exists X,
    (ensure_feature_df feats raw).2 = Some X /\
    columns X = feats /\
    rows X = map (fun r => map (fun c => dict_get (to_dict (columns raw) r) c PyFloat.nan)
                               feats)
                 (rows raw).
Proof. exact (ensure_feature_df_aligns feats raw wf_raw). Defined.

Lemma ensure_feature_df_idempotent_witness :
  (ensure_feature_df feats aligned).2 = Some aligned /\
  (ensure_feature_df feats aligned).1 = aligned.
Proof. exact (ensure_feature_df_idempotent feats aligned wf_aligned Logic.eq_refl). Defined.

Lemma ensure_feature_df_all_missing_witness :
  exists X,
    (ensure_feature_df feats unrelated).2 = Some X /\
    columns X = feats /\
    df_len X = df_len unrelated /\
    Forall (fun r => r = replicate (length feats) PyFloat.nan) (rows X).
Proof.
  apply (ensure_feature_df_all_missing feats unrelated wf_unrelated).
  apply Forall_forall. repeat constructor; apply (bool_decide_unpack _); vm_compute; exact I.
Defined.

Lemma predict_obj_numeric (X : DataFrame float) :
  predict_obj (as_object X) = Some (predict X).
Proof.
  unfold predict_obj, as_object. simpl.
  assert (E : mapM (mapM cell_number) (map (map Num) (rows X)) = Some (rows X)).
  { apply (mapM_fmap_Some (mapM cell_number) (map Num)). intros r.
    apply (mapM_fmap_Some cell_number Num). reflexivity. }
  rewrite E. reflexivity.
Defined.

Lemma wf_upload : wf_df upload.
Proof.
  split; [apply (bool_decide_unpack _); vm_compute; exact I | repeat constructor].
Defined.

Lemma wf_reuploaded : wf_df reuploaded.
Proof.
  split; [apply (bool_decide_unpack _); vm_compute; exact I | repeat constructor].
Defined.

Ltac split_elem H :=
  repeat (apply elem_of_cons in H; destruct H as [H|H]; [subst|]);
  try (now apply elem_of_nil in H).

Ltac no_text :=
  unfold numeric_inputs; simpl;
  repeat (apply List.Forall_cons; [|try apply List.Forall_nil]);
  intros c Hc s;
  (destruct Hc as [Hc|[Hc|Hc]];
   [ split_elem Hc | subst | subst ]); vm_compute; discriminate.

Lemma numeric_upload : numeric_inputs feats upload.
Proof. no_text. Defined.

Lemma numeric_reuploaded : numeric_inputs feats reuploaded.
Proof. no_text. Defined.

Lemma batch_matches_single_witness :
  exists out,
    batch feats thr round3 predict_obj upload = Some out /\
    columns out = columns upload ++ ["prob_infection"; "recommendation"] /\
    Forall2 (fun r o => exists X p a,
               predict_one_obj feats thr predict_obj (one_row (columns upload) r)
               = Some (X, p, a) /\
               o = r ++ [Num (round3 p); Str a])
            (rows upload) (rows out).
Proof.
  apply (batch_matches_single feats thr predict round3 predict_obj
           predict_length predict_rowwise predict_obj_numeric
           upload wf_upload numeric_upload);
    apply (bool_decide_unpack _); vm_compute; exact I.
Defined.

Lemma on_predict_survives_explanation_witness :
  exists X p a,
    predict_one feats thr predict aligned = Some (X, p, a) /\
    (forall msg, attribution_fails X = inl (Exc msg) ->
       on_predict_page feats thr predict fmt attribution_fails aligned =
       Some (mkPage
               [Metric "Probabilitas infeksi (terkalibrasi)" (fmt p);
                Metric "Ambang aksi (sens tinggi)" (fmt thr);
                Success ("Rekomendasi: **" +:+ a +:+ "**");
                Info ("SHAP tidak ditampilkan (" +:+ msg +:+ ").")]
               None)) /\
    exists pg rest,
      on_predict_page feats thr predict fmt attribution_fails aligned = Some pg /\
      shown pg =
      [Metric "Probabilitas infeksi (terkalibrasi)" (fmt p);
       Metric "Ambang aksi (sens tinggi)" (fmt thr);
       Success ("Rekomendasi: **" +:+ a +:+ "**")] ++ rest.
Proof.
  exact (on_predict_survives_explanation feats thr predict fmt attribution_fails
           predict_length aligned wf_aligned Logic.eq_refl).
Defined.

(** C8 as stated fails in two ways.  On a previously exported file,
    uploaded again, the flow overwrites the columns "prob_infection" and
    "recommendation" and adds none.  On an upload with a text under
    "median_lactate", in a row the classifier scores below the threshold,
    [np.isnan] raises and the flow returns no table. *)
Lemma batch_overwrites_uploaded_column :
  (exists out,
     batch feats thr round3 predict_obj reuploaded = Some out /\
     out = mkDF ["median_temp"; "prob_infection"; "recommendation"]
                [[Num 37.0%float; Num 0.3%float; Str "Stop / De-escalate"]] /\
     ~ keeps_and_adds_two reuploaded out) /\
  (predict_obj (mkDF feats_no_lactate [[Num 37.0%float; Num PyFloat.nan]])
   = Some [0.3%float] /\
   map_action_obj 0.3 (row_dict (columns text_lactate)
                                [Num 37.0%float; Str "high"]) thr = None /\
   batch feats_no_lactate thr round3 predict_obj text_lactate = None).
Proof.
  split.
  - eexists. split; [vm_compute; reflexivity|]. split; [reflexivity|].
    intros (c1 & c2 & Hcols & _). simpl in Hcols. discriminate.
  - repeat split; vm_compute; reflexivity.
Qed.

(** ** Further properties at work on concrete data *)

Lemma map_action_nan_witness :
  map_action PyFloat.nan (<["median_temp" := 39.0%float]> ∅) 0.5 = CONTINUE /\
  map_action 0.1 (<["median_temp" := 36.0%float]> ∅) PyFloat.nan = CONTINUE.
Proof.
  split; apply map_action_nan; [left | right]; reflexivity.
Defined.

Lemma map_action_monotone_witness :
  severity (map_action 0.3 (<["median_temp" := 38.5%float]> ∅) 0.5) <=
  severity (map_action 0.45 (<["median_temp" := 38.5%float]> ∅) 0.4).
Proof.
  apply map_action_monotone; reflexivity.
Defined.

Lemma ensure_feature_df_in_place_witness :
  wf_df (ensure_feature_df feats raw).1 /\
  (forall c, c ∈ columns (ensure_feature_df feats raw).1 <->
             c ∈ columns raw \/ c ∈ feats) /\
  exists extra,
    columns (ensure_feature_df feats raw).1 = columns raw ++ extra /\
    rows (ensure_feature_df feats raw).1 =
    map (fun r => r ++ replicate (length extra) PyFloat.nan) (rows raw).
Proof. exact (ensure_feature_df_in_place feats raw wf_raw). Defined.

Lemma ensure_feature_df_after_selection_witness :
  exists df',
    getitem ["median_temp"; "median_lactate"] raw = Some df' /\
    (ensure_feature_df feats df').2 = (ensure_feature_df feats raw).2.
Proof.
  apply (ensure_feature_df_after_selection feats ["median_temp"; "median_lactate"]
           raw wf_raw).
  - apply (bool_decide_unpack _); vm_compute; exact I.
  - apply Forall_forall. apply (bool_decide_unpack _); vm_compute; exact I.
  - apply (proj1 (Forall_forall
                    (fun c => c ∈ columns raw -> c ∈ ["median_temp"; "median_lactate"])
                    feats)).
    apply (bool_decide_unpack _); vm_compute; exact I.
Defined.

Lemma batch_any_table_witness :
  exists out,
    batch feats thr round3 predict_obj reuploaded = Some out /\ wf_df out /\
    df_len out = df_len reuploaded /\
    (forall k, k ∈ columns out <->
               k ∈ columns reuploaded \/ k = "prob_infection" \/ k = "recommendation") /\
    forall i r, rows reuploaded !! i = Some r ->
      exists o X p a,
        rows out !! i = Some o /\
        predict_one_obj feats thr predict_obj (one_row (columns reuploaded) r)
        = Some (X, p, a) /\
        pick "prob_infection" (columns out) o = [Num (round3 p)] /\
        pick "recommendation" (columns out) o = [Str a] /\
        forall k, k <> "prob_infection" -> k <> "recommendation" ->
                  pick k (columns out) o = pick k (columns reuploaded) r.
Proof.
  exact (batch_any_table feats thr predict round3 predict_obj
           predict_length predict_rowwise predict_obj_numeric
           reuploaded wf_reuploaded numeric_reuploaded).
Defined.

Lemma nodup_feats : NoDup feats.
Proof. apply (bool_decide_unpack _); vm_compute; exact I. Defined.

Lemma user_vals_cover_schema_witness :
  (user_vals feats untouched).*1 ≡ₚ feats /\
  (forall f v, (f, v) ∈ user_vals feats untouched -> v = entered untouched f).
Proof. exact (user_vals_cover_schema feats untouched nodup_feats). Defined.

Lemma ensure_feature_df_form_witness :
  ensure_feature_df feats (form_row feats untouched) =
  (form_row feats untouched, Some (one_row feats (map (entered untouched) feats))).
Proof. exact (ensure_feature_df_form feats untouched nodup_feats). Defined.

Lemma on_predict_form_witness :
  exists p d,
    predict (one_row feats (map (entered untouched) feats)) !! 0%nat = Some p /\
    (forall k, d !! k = if decide (k ∈ feats) then Some (entered untouched k) else None) /\
    on_predict feats thr predict fmt shap_fails (form_row feats untouched) =
    Some (show_result thr fmt p (map_action p d thr) ++
          explain shap_fails (one_row feats (map (entered untouched) feats))).
Proof.
  exact (on_predict_form feats thr predict fmt shap_fails untouched predict_length
           nodup_feats).
Defined.

Lemma untouched_form_never_evaluate_witness :
  predict_one feats thr predict (form_row feats untouched) =
  Some (one_row feats [37.0%float; 1.5%float; 10.0%float], 0.3%float, STOP) /\
  STOP = (if PyFloat.lt 0.3 thr then STOP else CONTINUE).
Proof.
  assert (H : predict_one feats thr predict (form_row feats untouched) =
              Some (one_row feats [37.0%float; 1.5%float; 10.0%float], 0.3%float, STOP))
    by (vm_compute; reflexivity).
  split; [exact H|].
  exact (untouched_form_never_evaluate feats thr predict untouched nodup_feats
           (fun _ _ => Logic.eq_refl) _ _ _ H).
Defined.
